(** * HD wallet manager (4-WebBasedWallet/webBasedWallet/src/App.tsx)

    A shallow embedding of the state and the event handlers of the
    [HDWalletManager] component: the React state variables become one record,
    every handler becomes a function from state to state, and the calls into
    bip39, ed25519-hd-key, tweetnacl, @solana/web3.js and @ethersproject are
    calls into an interface [Libraries] whose operations may throw. *)

From Stdlib Require Import Strings.String Strings.Ascii Strings.Byte List Arith Lia.
From stdpp Require Import base list strings pretty.

Open Scope string_scope.

(** ** JavaScript values *)

(** A thrown value, as far as the handlers look at it: [err.message]. *)
Record JsError := { message : option string }.

(** The outcome of a call that may throw. *)
Inductive result (A : Type) : Type :=
| Return (a : A)
| Throw (err : JsError).
Arguments Return {A} a.
Arguments Throw {A} err.

Definition bind {A B : Type} (r : result A) (k : A -> result B) : result B :=
  match r with
  | Return a => k a
  | Throw err => Throw err
  end.

Notation "'call' x <- r ; k" := (bind r (fun x => k))
  (at level 10, x name, r at level 100, k at level 200).

(** Truthiness of a string: only the empty string is falsy. *)
Definition truthy (s : string) : bool :=
  match s with
  | EmptyString => false
  | String _ _ => true
  end.

(** [err.message || 'Unknown error'] *)
Definition message_or_unknown (err : JsError) : string :=
  match message err with
  | Some m => if truthy m then m else "Unknown error"
  | None => "Unknown error"
  end.

(** A string holds text as its UTF-8 bytes; in ASCII text a byte is a
    character.

    The code points that [String.prototype.trim] strips, each as its UTF-8
    bytes: the WhiteSpace code points TAB, VT, FF, U+FEFF and the space
    separators SP, U+00A0, U+1680, U+2000 to U+200A, U+202F, U+205F, U+3000,
    and the LineTerminator code points LF, CR, U+2028, U+2029. *)
Definition white_space : list (list nat) :=
  [ [9]; [10]; [11]; [12]; [13]; [32];
    [194; 160];
    [225; 154; 128];
    [226; 128; 128]; [226; 128; 129]; [226; 128; 130]; [226; 128; 131];
    [226; 128; 132]; [226; 128; 133]; [226; 128; 134]; [226; 128; 135];
    [226; 128; 136]; [226; 128; 137]; [226; 128; 138];
    [226; 128; 168]; [226; 128; 169];
    [226; 128; 175];
    [226; 129; 159];
    [227; 128; 128];
    [239; 187; 191] ].

Definition string_of_codes (codes : list nat) : string :=
  fold_right (fun n s => String (ascii_of_nat n) s) EmptyString codes.

(** [s] without its prefix [p], if it starts with [p]. *)
Fixpoint strip_prefix (p s : string) : option string :=
  match p with
  | EmptyString => Some s
  | String a p' =>
      match s with
      | EmptyString => None
      | String b s' => if Ascii.eqb a b then strip_prefix p' s' else None
      end
  end.

(** [s] without the first of the prefixes [ps] it starts with. *)
Fixpoint strip_any (ps : list string) (s : string) : option string :=
  match ps with
  | [] => None
  | p :: ps' =>
      match strip_prefix p s with
      | Some rest => Some rest
      | None => strip_any ps' s
      end
  end.

(** Strips prefixes out of [ps] for as long as there is one; [fuel] bounds
    the number of rounds, and the length of [s] is enough of it. *)
Fixpoint strip_all (fuel : nat) (ps : list string) (s : string) : string :=
  match fuel with
  | 0 => s
  | S fuel' =>
      match strip_any ps s with
      | Some rest => strip_all fuel' ps rest
      | None => s
      end
  end.

Definition trimStart (s : string) : string :=
  strip_all (String.length s) (map string_of_codes white_space) s.

(** At the end of the string the same, on the reversed bytes. *)
Definition trimEnd (s : string) : string :=
  String.rev
    (strip_all (String.length s)
       (map (fun codes => string_of_codes (rev codes)) white_space)
       (String.rev s)).

Definition trim (s : string) : string := trimEnd (trimStart s).

(** [Array.prototype.filter] with a callback that also receives the position. *)
Fixpoint filter_from {A : Type} (p : A -> nat -> bool) (i : nat) (l : list A) : list A :=
  match l with
  | [] => []
  | x :: l' => if p x i then x :: filter_from p (S i) l' else filter_from p (S i) l'
  end.

Definition js_filter {A : Type} (p : A -> nat -> bool) (l : list A) : list A :=
  filter_from p 0 l.

(** [Buffer.prototype.toString('hex')]: two lower-case digits per byte. *)
Definition hex_digit (n : nat) : ascii :=
  match n with
  | 0 => "0" | 1 => "1" | 2 => "2" | 3 => "3" | 4 => "4" | 5 => "5" | 6 => "6"
  | 7 => "7" | 8 => "8" | 9 => "9" | 10 => "a" | 11 => "b" | 12 => "c"
  | 13 => "d" | 14 => "e" | _ => "f"
  end%char.

Fixpoint toString_hex (b : list byte) : string :=
  match b with
  | [] => EmptyString
  | x :: b' =>
      let n := Byte.to_nat x in
      String (hex_digit (n / 16)) (String (hex_digit (n mod 16)) (toString_hex b'))
  end.

(** ** The libraries the component imports

    Only the operations App.tsx calls, each with the arguments it passes.
    [bip39.generateMnemonic] draws fresh entropy and is therefore not a
    function: its outcome is an input of the timer callback below. *)

(** What [nacl.sign.keyPair.fromSeed] returns. *)
Record SignKeyPair := { publicKey : list byte; secretKey : list byte }.

Class Libraries := {
  (* bip39 *)
  validateMnemonic : string -> bool;
  mnemonicToSeedSync : string -> result (list byte);
  (* ed25519-hd-key: [derivePath(path, hexSeed).key] *)
  derivePath_key : string -> string -> result (list byte);
  (* tweetnacl *)
  nacl_sign_keyPair_fromSeed : list byte -> result SignKeyPair;
  (* @solana/web3.js *)
  Keypair : Type;
  Keypair_fromSecretKey : list byte -> result Keypair;
  publicKey_toBase58 : Keypair -> string;
  (* @ethersproject/hdnode *)
  HDNode : Type;
  HDNode_fromSeed : list byte -> result HDNode;
  HDNode_derivePath : HDNode -> string -> result HDNode;
  HDNode_privateKey : HDNode -> string;
  (* @ethersproject/wallet *)
  Wallet : Type;
  new_Wallet : string -> result Wallet;
  Wallet_address : Wallet -> string
}.

(** ** Types (App.tsx, lines 11-21) *)

Record WalletData := {
  address : string;
  privateKey : string;
  derivationPath : string;
  index : nat
}.

Record WalletState := {
  solana : list WalletData;
  ethereum : list WalletData
}.

(** The type ['solana' | 'ethereum'] of [removeWallet]'s first parameter. *)
Inductive Chain := Solana | Ethereum.

#[global] Instance Chain_eq_dec : EqDecision Chain.
Proof. solve_decision. Defined.

(** [prev[chain]] and [{ ...prev, [chain]: l }] *)
Definition get_chain (chain : Chain) (w : WalletState) : list WalletData :=
  match chain with
  | Solana => solana w
  | Ethereum => ethereum w
  end.

Definition set_chain (chain : Chain) (l : list WalletData) (w : WalletState) : WalletState :=
  match chain with
  | Solana => {| solana := l; ethereum := ethereum w |}
  | Ethereum => {| solana := solana w; ethereum := l |}
  end.

(** ** Constants (lines 24-27) *)

Definition DERIVATION_PATHS_SOLANA : string := "m/44'/501'".
Definition DERIVATION_PATHS_ETHEREUM : string := "m/44'/60'".

(** ** Component state (lines 149-154) *)

Record AppState := {
  mnemonic : string;
  customMnemonic : string;
  wallets : WalletState;
  showMnemonic : bool;
  error : string;
  isGenerating : bool
}.

Definition no_wallets : WalletState := {| solana := []; ethereum := [] |}.

Definition initialState : AppState := {|
  mnemonic := "";
  customMnemonic := "";
  wallets := no_wallets;
  showMnemonic := false;
  error := "";
  isGenerating := false
|}.

(** The state setters returned by [useState]. *)
Definition setMnemonic (v : string) (s : AppState) : AppState :=
  {| mnemonic := v; customMnemonic := customMnemonic s; wallets := wallets s;
     showMnemonic := showMnemonic s; error := error s; isGenerating := isGenerating s |}.

Definition setCustomMnemonic (v : string) (s : AppState) : AppState :=
  {| mnemonic := mnemonic s; customMnemonic := v; wallets := wallets s;
     showMnemonic := showMnemonic s; error := error s; isGenerating := isGenerating s |}.

(** [setWallets(prev => f(prev))]; [setWallets(v)] is [setWallets (fun _ => v)]. *)
Definition setWallets (f : WalletState -> WalletState) (s : AppState) : AppState :=
  {| mnemonic := mnemonic s; customMnemonic := customMnemonic s; wallets := f (wallets s);
     showMnemonic := showMnemonic s; error := error s; isGenerating := isGenerating s |}.

Definition setShowMnemonic (v : bool) (s : AppState) : AppState :=
  {| mnemonic := mnemonic s; customMnemonic := customMnemonic s; wallets := wallets s;
     showMnemonic := v; error := error s; isGenerating := isGenerating s |}.

Definition setError (v : string) (s : AppState) : AppState :=
  {| mnemonic := mnemonic s; customMnemonic := customMnemonic s; wallets := wallets s;
     showMnemonic := showMnemonic s; error := v; isGenerating := isGenerating s |}.

Definition setIsGenerating (v : bool) (s : AppState) : AppState :=
  {| mnemonic := mnemonic s; customMnemonic := customMnemonic s; wallets := wallets s;
     showMnemonic := showMnemonic s; error := error s; isGenerating := v |}.

Section Handlers.
Context {L : Libraries}.

(** [isValidMnemonic] (lines 156-158) *)
Definition isValidMnemonic (s : AppState) : bool :=
  if truthy (mnemonic s) then validateMnemonic (mnemonic s) else false.

(** [generateNewMnemonic] (lines 160-183). The click handler runs lines
    161-162 and arms a 100 ms timer; the timer callback runs lines 165-181,
    where [r] is what [bip39.generateMnemonic()] did. *)
Definition generateNewMnemonic (s : AppState) : AppState :=
  setError "" (setIsGenerating true s).

Definition generateNewMnemonic_timeout (r : result string) (s : AppState) : AppState :=
  setIsGenerating false
    match r with
    | Return newMnemonic =>
        setWallets (fun _ => no_wallets)
          (setCustomMnemonic newMnemonic (setMnemonic newMnemonic s))
    | Throw err =>
        setError ("Failed to generate mnemonic: " ++ message_or_unknown err) s
    end.

(** [importMnemonic] (lines 185-201) *)
Definition importMnemonic (s : AppState) : AppState :=
  let trimmedMnemonic := trim (customMnemonic s) in
  if negb (truthy trimmedMnemonic) then
    setError "Please enter a mnemonic phrase" s
  else if negb (validateMnemonic trimmedMnemonic) then
    setError "Invalid mnemonic phrase. Please check and try again." s
  else
    setWallets (fun _ => no_wallets) (setMnemonic trimmedMnemonic (setError "" s)).

(** The derivation paths built at lines 209 and 240. *)
Definition solana_derivationPath (currentIndex : nat) : string :=
  DERIVATION_PATHS_SOLANA ++ "/" ++ pretty currentIndex ++ "'/0'".

Definition ethereum_derivationPath (currentIndex : nat) : string :=
  DERIVATION_PATHS_ETHEREUM ++ "/" ++ pretty currentIndex.

(** Lines 207-220: the part of the [try] block of [generateSolanaWallet]
    that computes [newWallet]; any of the library calls may throw. *)
Definition newSolanaWallet (mnemonic : string) (currentIndex : nat) : result WalletData :=
  call seed <- mnemonicToSeedSync mnemonic;
  let derivationPath := solana_derivationPath currentIndex in
  call derivedSeed <- derivePath_key derivationPath (toString_hex seed);
  call keypair <- nacl_sign_keyPair_fromSeed derivedSeed;
  call solanaKeypair <- Keypair_fromSecretKey (secretKey keypair);
  Return {| address := publicKey_toBase58 solanaKeypair;
            privateKey := toString_hex (secretKey keypair);
            derivationPath := derivationPath;
            index := currentIndex |}.

(** [generateSolanaWallet] (lines 203-231) *)
Definition generateSolanaWallet (s : AppState) : AppState :=
  if negb (truthy (mnemonic s)) then s
  else
    match newSolanaWallet (mnemonic s) (length (solana (wallets s))) with
    | Return newWallet =>
        setError ""
          (setWallets (fun prev => set_chain Solana (solana prev ++ [newWallet]) prev) s)
    | Throw err =>
        setError ("Failed to generate Solana wallet: " ++ message_or_unknown err) s
    end.

(** Lines 237-250: the part of the [try] block of [generateEthereumWallet]
    that computes [newWallet]. *)
Definition newEthereumWallet (mnemonic : string) (currentIndex : nat) : result WalletData :=
  call seed <- mnemonicToSeedSync mnemonic;
  call hdNode <- HDNode_fromSeed seed;
  let derivationPath := ethereum_derivationPath currentIndex in
  call child <- HDNode_derivePath hdNode derivationPath;
  call wallet <- new_Wallet (HDNode_privateKey child);
  Return {| address := Wallet_address wallet;
            privateKey := HDNode_privateKey child;
            derivationPath := derivationPath;
            index := currentIndex |}.

(** [generateEthereumWallet] (lines 233-261) *)
Definition generateEthereumWallet (s : AppState) : AppState :=
  if negb (truthy (mnemonic s)) then s
  else
    match newEthereumWallet (mnemonic s) (length (ethereum (wallets s))) with
    | Return newWallet =>
        setError ""
          (setWallets (fun prev => set_chain Ethereum (ethereum prev ++ [newWallet]) prev) s)
    | Throw err =>
        setError ("Failed to generate Ethereum wallet: " ++ message_or_unknown err) s
    end.

(** [removeWallet] (lines 263-268). The second parameter is the position the
    card had in [wallets[chain].map] (lines 409-415 and 440-446). *)
Definition removeWallet (chain : Chain) (index : nat) (s : AppState) : AppState :=
  setWallets
    (fun prev =>
       set_chain chain
         (js_filter (fun _ i => negb (Nat.eqb i index)) (get_chain chain prev)) prev)
    s.

(** The [onClick] of "Clear seed phrase and wallets" (lines 368-372). *)
Definition clearSeedPhraseAndWallets (s : AppState) : AppState :=
  setWallets (fun _ => no_wallets) (setCustomMnemonic "" (setMnemonic "" s)).

(** "Add Wallet" for either chain, and the record it computes. *)
Definition deriveNext (chain : Chain) : AppState -> AppState :=
  match chain with
  | Solana => generateSolanaWallet
  | Ethereum => generateEthereumWallet
  end.

Definition newWallet (chain : Chain) : string -> nat -> result WalletData :=
  match chain with
  | Solana => newSolanaWallet
  | Ethereum => newEthereumWallet
  end.

Definition chain_derivationPath (chain : Chain) : nat -> string :=
  match chain with
  | Solana => solana_derivationPath
  | Ethereum => ethereum_derivationPath
  end.

(** ** The component as a transition system

    One event per handler the JSX installs. A handler runs against the state
    of the latest render and its updates are applied before the next event. *)
Inductive Event :=
| ChangeCustomMnemonic (value : string)        (* textarea onChange, line 321 *)
| ClickGenerateNew                             (* line 296 *)
| GenerateNewTimeout (r : result string)       (* the timer armed at line 164 *)
| ClickImport                                  (* line 327 *)
| ClickShowHide                                (* line 340 *)
| ClickClear                                   (* line 368 *)
| ClickAddWallet (chain : Chain)               (* lines 395 and 426 *)
| ClickRemove (chain : Chain) (position : nat) (* lines 414 and 445 *).

Definition handle (e : Event) (s : AppState) : AppState :=
  match e with
  | ChangeCustomMnemonic value => setCustomMnemonic value s
  | ClickGenerateNew => generateNewMnemonic s
  | GenerateNewTimeout r => generateNewMnemonic_timeout r s
  | ClickImport => importMnemonic s
  | ClickShowHide => setShowMnemonic (negb (showMnemonic s)) s
  | ClickClear => clearSeedPhraseAndWallets s
  | ClickAddWallet chain => deriveNext chain s
  | ClickRemove chain position => removeWallet chain position s
  end.

(** Which controls the JSX renders in state [s] (lines 288, 297, 334, 388,
    409, 440). A timer callback is taken to be possible at any time. *)
Definition enabled (e : Event) (s : AppState) : bool :=
  match e with
  | ChangeCustomMnemonic _ | ClickImport => negb (truthy (mnemonic s))
  | ClickGenerateNew => negb (truthy (mnemonic s)) && negb (isGenerating s)
  | GenerateNewTimeout _ => true
  | ClickShowHide | ClickClear => truthy (mnemonic s)
  | ClickAddWallet _ => truthy (mnemonic s) && isValidMnemonic s
  | ClickRemove chain position =>
      truthy (mnemonic s) && isValidMnemonic s
      && Nat.ltb position (length (get_chain chain (wallets s)))
  end.

Fixpoint run (es : list Event) (s : AppState) : AppState :=
  match es with
  | [] => s
  | e :: es' => run es' (handle e s)
  end.

(** Every event of [es] is one the page offers when it happens. *)
Fixpoint feasible (es : list Event) (s : AppState) : bool :=
  match es with
  | [] => true
  | e :: es' => enabled e s && feasible es' (handle e s)
  end.

Definition reachable (s : AppState) : Prop :=
  exists es, run es initialState = s.

End Handlers.

(** ** An invariant of the reachable states *)

(** Every record of a registry is what [newWallet] computes from the current
    mnemonic at the record's own [index]. *)
Definition derived_from_mnemonic {L : Libraries} (s : AppState) : Prop :=
  forall (c : Chain) (w : WalletData),
    w ∈ get_chain c (wallets s) -> newWallet c (mnemonic s) (index w) = Return w.

(** ** Scenarios *)

(** Typing [M] into the text area and pressing "Import Seed Phrase". *)
Definition import_phrase (M : string) : list Event :=
  [ChangeCustomMnemonic M; ClickImport].

Definition add_three_remove_second (M : string) : list Event :=
  import_phrase M
  ++ [ClickAddWallet Solana; ClickAddWallet Solana; ClickAddWallet Solana;
      ClickRemove Solana 1].

(** ** Wordings of the specification, for comparison with the code *)

(** The per-chain coin type of the specification's DerivationPath. *)
Definition coinType (chain : Chain) : string :=
  match chain with
  | Solana => "501"
  | Ethereum => "60"
  end.

(** "a string of the form m/44'/{coinType}'/{account}'[/{change}']" *)
Definition spec_DerivationPath (chain : Chain) (account : nat) (path : string) : Prop :=
  path = "m/44'/" ++ coinType chain ++ "'/" ++ pretty account ++ "'"
  \/ exists change : string,
       path = "m/44'/" ++ coinType chain ++ "'/" ++ pretty account ++ "'/" ++ change ++ "'".

(** "identity is the record's address; removes at most one matching record;
    no-op if not found" *)
Fixpoint remove_by_address (identity : string) (l : list WalletData) : list WalletData :=
  match l with
  | [] => []
  | w :: l' =>
      if String.eqb (address w) identity then l' else w :: remove_by_address identity l'
  end.



(** ** A stand-in for the libraries

    A small deterministic implementation of [Libraries], used only to
    evaluate the handlers on concrete inputs: the "seed" is the phrase
    itself, a derived key is the seed followed by the path, and the only
    phrase that validates is the twelve-word phrase below. *)

Definition abandon_about : string :=
  "abandon abandon abandon abandon abandon abandon abandon abandon abandon abandon abandon about".

Definition standin : Libraries := {|
  validateMnemonic := fun m => String.eqb m abandon_about;
  mnemonicToSeedSync := fun m => Return (list_byte_of_string m);
  derivePath_key := fun path hexSeed => Return (list_byte_of_string (hexSeed ++ path));
  nacl_sign_keyPair_fromSeed := fun seed => Return {| publicKey := seed; secretKey := seed |};
  Keypair := list byte;
  Keypair_fromSecretKey := fun sk => Return sk;
  publicKey_toBase58 := fun kp => string_of_list_byte kp;
  HDNode := string;
  HDNode_fromSeed := fun seed => Return (toString_hex seed);
  HDNode_derivePath := fun node path => Return (node ++ path);
  HDNode_privateKey := fun node => "0x" ++ node;
  Wallet := string;
  new_Wallet := fun key => Return key;
  Wallet_address := fun w => w
|}.

(** A second stand-in, whose seed derivation throws an error without a
    message. *)
Definition standin_throwing : Libraries := {|
  validateMnemonic := fun m => String.eqb m abandon_about;
  mnemonicToSeedSync := fun _ => Throw {| message := None |};
  derivePath_key := fun path hexSeed => Return (list_byte_of_string (hexSeed ++ path));
  nacl_sign_keyPair_fromSeed := fun seed => Return {| publicKey := seed; secretKey := seed |};
  Keypair := list byte;
  Keypair_fromSecretKey := fun sk => Return sk;
  publicKey_toBase58 := fun kp => string_of_list_byte kp;
  HDNode := string;
  HDNode_fromSeed := fun seed => Return (toString_hex seed);
  HDNode_derivePath := fun node path => Return (node ++ path);
  HDNode_privateKey := fun node => "0x" ++ node;
  Wallet := string;
  new_Wallet := fun key => Return key;
  Wallet_address := fun w => w
|}.

(** ** The utility functions (lines 30-41) *)

(** An index argument of [String.prototype.slice], made relative to a string
    of length [len]: negative values count from the end. *)
Definition relative_index (len k : Z) : Z :=
  if (k <? 0)%Z then Z.max (len + k) 0 else Z.min k len.

(** [s.slice(start, end)] for integer arguments; without [end] the slice runs
    to the end of the string. Positions count bytes: the characters of the
    base-58 or hexadecimal text of an address. *)
Definition slice (s : string) (start : Z) (end_ : option Z) : string :=
  let len := Z.of_nat (String.length s) in
  let from := relative_index len start in
  let to := match end_ with
            | Some e => relative_index len e
            | None => len
            end in
  String.substring (Z.to_nat from) (Z.to_nat (Z.max (to - from) 0)) s.

(** [truncateAddress] (lines 39-41); [truncateAddress4] is the call that
    leaves [chars] to its default. *)
Definition truncateAddress (address : string) (chars : Z) : string :=
  slice address 0 (Some chars) ++ "..." ++ slice address (- chars) None.

Definition truncateAddress4 (address : string) : string := truncateAddress address 4.

(** [copyToClipboard] (lines 30-37), where [w] is what
    [navigator.clipboard.writeText(text)] did. *)
Definition copyToClipboard (w : result unit) : bool :=
  match w with
  | Return _ => true
  | Throw _ => false
  end.

(** ** [CopyButton] (lines 44-74)

    The state variable [copied], and the number of callbacks armed by
    [setTimeout] at line 51 that have not run yet. *)
Record CopyButtonState := {
  copied : bool;
  resets : nat
}.

Definition CopyButton_initial : CopyButtonState := {| copied := false; resets := 0 |}.

(** [handleCopy] (lines 47-53) *)
Definition handleCopy (w : result unit) (b : CopyButtonState) : CopyButtonState :=
  if copyToClipboard w then {| copied := true; resets := S (resets b) |} else b.

(** The callback [() => setCopied(false)] of line 51. *)
Definition handleCopy_timeout (b : CopyButtonState) : CopyButtonState :=
  {| copied := false; resets := pred (resets b) |}.

Inductive CopyEvent :=
| ClickCopy (w : result unit)
| CopyTimeout.

(** A callback runs only if one is pending. *)
Definition copy_handle (e : CopyEvent) (b : CopyButtonState) : option CopyButtonState :=
  match e with
  | ClickCopy w => Some (handleCopy w b)
  | CopyTimeout => if Nat.ltb 0 (resets b) then Some (handleCopy_timeout b) else None
  end.

Fixpoint copy_run (es : list CopyEvent) (b : CopyButtonState) : option CopyButtonState :=
  match es with
  | [] => Some b
  | e :: es' =>
      match copy_handle e b with
      | Some b' => copy_run es' b'
      | None => None
      end
  end.

(** ** The page with its pending timer

    The component state together with the number of callbacks armed at line
    164 that have not run yet. An event happens only if the page offers it;
    a timer callback only if one is pending. *)
Record Page := {
  component : AppState;
  generating : nat
}.

Definition Page_initial : Page := {| component := initialState; generating := 0 |}.

Definition page_handle {L : Libraries} (e : Event) (p : Page) : option Page :=
  match e with
  | GenerateNewTimeout r =>
      if Nat.ltb 0 (generating p)
      then Some {| component := handle e (component p); generating := pred (generating p) |}
      else None
  | ClickGenerateNew =>
      if enabled e (component p)
      then Some {| component := handle e (component p); generating := S (generating p) |}
      else None
  | _ =>
      if enabled e (component p)
      then Some {| component := handle e (component p); generating := generating p |}
      else None
  end.

Fixpoint page_run {L : Libraries} (es : list Event) (p : Page) : option Page :=
  match es with
  | [] => Some p
  | e :: es' =>
      match page_handle e p with
      | Some p' => page_run es' p'
      | None => None
      end
  end.

(** ** Numbering of the registries *)

(** The record at position [p] of a registry has index [p]. *)
Definition numbered (s : AppState) : Prop :=
  forall (c : Chain) (p : nat) (w : WalletData),
    get_chain c (wallets s) !! p = Some w -> index w = p.

(** Without a mnemonic there are no wallets. *)
Definition no_wallets_without_mnemonic (s : AppState) : Prop :=
  truthy (mnemonic s) = false -> wallets s = no_wallets.

(** A record is never above the position its index names. *)
Definition position_le_index (s : AppState) : Prop :=
  forall (c : Chain) (p : nat) (w : WalletData),
    get_chain c (wallets s) !! p = Some w -> p <= index w.

(** No "Remove" click of [es], run from [s], is on a card other than the
    last one of its list. *)
Fixpoint removes_only_last {L : Libraries} (es : list Event) (s : AppState) : bool :=
  match es with
  | [] => true
  | e :: es' =>
      match e with
      | ClickRemove c i => Nat.leb (length (get_chain c (wallets s))) (S i)
      | _ => true
      end && removes_only_last es' (handle e s)
  end.

(** Only "Add Wallet" and "Remove" clicks. *)
Definition wallet_click (e : Event) : bool :=
  match e with
  | ClickAddWallet _ | ClickRemove _ _ => true
  | _ => false
  end.

(** * Properties *)

(** ** Library of the embedding *)

Lemma AppState_eta (s : AppState) :
  {| mnemonic := mnemonic s; customMnemonic := customMnemonic s; wallets := wallets s;
     showMnemonic := showMnemonic s; error := error s; isGenerating := isGenerating s |} = s.
Proof. by destruct s. Qed.

Lemma set_get_chain (chain : Chain) (w : WalletState) :
  set_chain chain (get_chain chain w) w = w.
Proof. by destruct chain, w. Qed.

Lemma get_set_chain (chain : Chain) (l : list WalletData) (w : WalletState) :
  get_chain chain (set_chain chain l w) = l.
Proof. by destruct chain. Qed.

Lemma get_set_chain_other (c c' : Chain) (l : list WalletData) (w : WalletState) :
  c <> c' -> get_chain c' (set_chain c l w) = get_chain c' w.
Proof. by destruct c, c'. Qed.

(** Past position [index] the callback [(_, i) => i !== index] keeps everything. *)
Lemma filter_from_past {A : Type} (k n : nat) (l : list A) :
  k < n -> filter_from (fun _ i => negb (Nat.eqb i k)) n l = l.
Proof.
  revert n. induction l as [|x l IH]; intros n Hn; [done|].
  cbn [filter_from]. destruct (Nat.eqb_spec n k) as [->|_]; [lia|].
  cbn. f_equal. apply IH. lia.
Qed.

(** [filter((_, i) => i !== index)] deletes the element at position [index]. *)
Lemma filter_from_delete {A : Type} (k n : nat) (l : list A) :
  filter_from (fun _ i => negb (Nat.eqb i (n + k))) n l = delete k l.
Proof.
  revert k n. induction l as [|x l IH]; intros k n; [done|].
  cbn [filter_from]. destruct k as [|k].
  - rewrite Nat.add_0_r, Nat.eqb_refl. cbn. apply filter_from_past. lia.
  - destruct (Nat.eqb_spec n (n + S k)) as [Heq|_]; [lia|].
    cbn. f_equal. replace (n + S k) with (S n + k) by lia. apply IH.
Qed.

Lemma js_filter_delete {A : Type} (k : nat) (l : list A) :
  js_filter (fun _ i => negb (Nat.eqb i k)) l = delete k l.
Proof. apply (filter_from_delete k 0 l). Qed.

Lemma delete_out_of_range {A : Type} (k : nat) (l : list A) :
  length l <= k -> delete k l = l.
Proof.
  revert k. induction l as [|x l IH]; intros k Hk; [done|].
  destruct k as [|k]; cbn in *; [lia|]. f_equal. apply IH. lia.
Qed.

(** *** [trim] *)

Lemma strip_prefix_length (p s rest : string) :
  strip_prefix p s = Some rest ->
  String.length s = String.length p + String.length rest.
Proof.
  revert s. induction p as [|a p IH]; intros s; cbn [strip_prefix].
  - by intros [= ->].
  - destruct s as [|b s]; [done|]. destruct (Ascii.eqb a b); [|done].
    intros H%IH. cbn [String.length]. lia.
Qed.

Lemma strip_any_shorter (ps : list string) (s rest : string) :
  Forall (fun p => p <> EmptyString) ps ->
  strip_any ps s = Some rest -> String.length rest < String.length s.
Proof.
  induction 1 as [|p ps Hp _ IH]; cbn [strip_any]; [done|].
  destruct (strip_prefix p s) as [r|] eqn:Hr; [|exact IH].
  intros [= ->]. apply strip_prefix_length in Hr.
  destruct p; [done|]. cbn [String.length] in Hr. lia.
Qed.

(** The length of the string is fuel enough: what [strip_all] returns does
    not start with any of the prefixes. *)
Lemma strip_all_stripped (fuel : nat) (ps : list string) (s : string) :
  Forall (fun p => p <> EmptyString) ps ->
  String.length s <= fuel ->
  strip_any ps (strip_all fuel ps s) = None.
Proof.
  intros Hps. revert s. induction fuel as [|fuel IH]; intros s Hs; cbn [strip_all].
  - destruct s; [|cbn in Hs; lia].
    destruct (strip_any ps EmptyString) as [r|] eqn:Hr; [|done].
    apply strip_any_shorter in Hr; [cbn in Hr; lia | done].
  - destruct (strip_any ps s) as [r|] eqn:Hr; [|done].
    apply IH. apply strip_any_shorter in Hr; [lia | done].
Qed.

Lemma white_space_nonempty (f : list nat -> list nat) :
  (forall codes, codes <> [] -> f codes <> []) ->
  Forall (fun p => p <> EmptyString)
         (map (fun codes => string_of_codes (f codes)) white_space).
Proof.
  intros Hf. apply Forall_map, Forall_forall. intros codes Hin.
  assert (codes <> []) as Hne.
  { apply list_elem_of_In in Hin. unfold white_space in Hin. cbn in Hin.
    repeat (destruct Hin as [<-|Hin]; [done|]). done. }
  specialize (Hf codes Hne). by destruct (f codes).
Qed.

Lemma length_rev_app (s1 s2 : string) :
  String.length (String.rev_app s1 s2) = String.length s1 + String.length s2.
Proof.
  revert s2. induction s1 as [|a s1 IH]; intros s2; [done|].
  cbn [String.rev_app]. rewrite IH. cbn [String.length]. lia.
Qed.

Lemma rev_app_rev_app (s1 s2 s3 : string) :
  String.rev_app (String.rev_app s1 s2) s3 = String.rev_app s2 (s1 ++ s3).
Proof.
  revert s2 s3. induction s1 as [|a s1 IH]; intros s2 s3; [done|].
  cbn [String.rev_app]. rewrite IH. reflexivity.
Qed.

Lemma rev_rev (s : string) : String.rev (String.rev s) = s.
Proof.
  unfold String.rev. rewrite rev_app_rev_app. cbn [String.rev_app].
  induction s as [|a s IH]; [done|].
  change (String a (s ++ "") = String a s). by rewrite IH.
Qed.

(** What [trim] returns neither starts nor ends with a white space code
    point. *)
Lemma trimStart_stripped (s : string) :
  strip_any (map string_of_codes white_space) (trimStart s) = None.
Proof.
  apply strip_all_stripped; [|done].
  apply (white_space_nonempty (fun codes => codes)). done.
Qed.

Lemma trimEnd_stripped (s : string) :
  strip_any (map (fun codes => string_of_codes (rev codes)) white_space)
            (String.rev (trimEnd s)) = None.
Proof.
  unfold trimEnd. rewrite rev_rev. apply strip_all_stripped.
  - apply (white_space_nonempty (@rev nat)).
    intros codes Hne Hrev. apply Hne.
    apply (f_equal (@length nat)) in Hrev. rewrite length_rev in Hrev.
    by destruct codes.
  - unfold String.rev. rewrite length_rev_app. cbn. lia.
Qed.

Lemma trim_stripped (s : string) :
  strip_any (map (fun codes => string_of_codes (rev codes)) white_space)
            (String.rev (trim s)) = None.
Proof. apply trimEnd_stripped. Qed.

(** TAB, U+00A0, U+FEFF and SP in front, U+3000, U+2003, LF and U+2029
    behind. *)
Example trim_unicode_white_space :
  trim (string_of_codes [9; 194; 160; 239; 187; 191; 32] ++ "ab  c"
        ++ string_of_codes [227; 128; 128; 226; 128; 131; 10; 226; 128; 169])
  = "ab  c".
Proof. vm_compute. reflexivity. Qed.

Section Facts.
Context {L : Libraries}.

(** What a successful computation of [newWallet] fixes about the record. *)
Lemma newWallet_fields (chain : Chain) (m : string) (i : nat) (w : WalletData) :
  newWallet chain m i = Return w ->
  index w = i /\ derivationPath w = chain_derivationPath chain i.
Proof.
  destruct chain; cbn [newWallet chain_derivationPath].
  - unfold newSolanaWallet, bind.
    destruct (mnemonicToSeedSync m); [|done].
    destruct (derivePath_key _ _); [|done].
    destruct (nacl_sign_keyPair_fromSeed _); [|done].
    destruct (Keypair_fromSecretKey _); [|done].
    by intros [= <-].
  - unfold newEthereumWallet, bind.
    destruct (mnemonicToSeedSync m); [|done].
    destruct (HDNode_fromSeed _); [|done].
    destruct (HDNode_derivePath _ _); [|done].
    destruct (new_Wallet _); [|done].
    by intros [= <-].
Qed.

(** The three ways "Add Wallet" can go. *)
Lemma deriveNext_no_mnemonic (chain : Chain) (s : AppState) :
  truthy (mnemonic s) = false -> deriveNext chain s = s.
Proof.
  intros H. destruct chain; cbn [deriveNext];
    unfold generateSolanaWallet, generateEthereumWallet; by rewrite H.
Qed.

Lemma deriveNext_Return (chain : Chain) (s : AppState) (w : WalletData) :
  truthy (mnemonic s) = true ->
  newWallet chain (mnemonic s) (length (get_chain chain (wallets s))) = Return w ->
  deriveNext chain s =
    setError "" (setWallets (set_chain chain (get_chain chain (wallets s) ++ [w])) s).
Proof.
  intros H Hw. destruct chain; cbn [deriveNext newWallet get_chain] in *;
    unfold generateSolanaWallet, generateEthereumWallet; by rewrite H, Hw.
Qed.

Lemma deriveNext_Throw (chain : Chain) (s : AppState) (err : JsError) :
  truthy (mnemonic s) = true ->
  newWallet chain (mnemonic s) (length (get_chain chain (wallets s))) = Throw err ->
  wallets (deriveNext chain s) = wallets s /\ mnemonic (deriveNext chain s) = mnemonic s.
Proof.
  intros H Hw. destruct chain; cbn [deriveNext newWallet get_chain] in *;
    unfold generateSolanaWallet, generateEthereumWallet; by rewrite H, Hw.
Qed.

Lemma removeWallet_registry (chain : Chain) (i : nat) (s : AppState) :
  get_chain chain (wallets (removeWallet chain i s)) = delete i (get_chain chain (wallets s)).
Proof.
  unfold removeWallet. cbn [setWallets wallets].
  by rewrite get_set_chain, js_filter_delete.
Qed.

Lemma importMnemonic_accepts (s : AppState) :
  truthy (trim (customMnemonic s)) = true ->
  validateMnemonic (trim (customMnemonic s)) = true ->
  importMnemonic s =
    setWallets (fun _ => no_wallets) (setMnemonic (trim (customMnemonic s)) (setError "" s)).
Proof. intros H1 H2. unfold importMnemonic. by rewrite H1, H2. Qed.



End Facts.

(** ** Frame conditions of the handlers *)

Section Frames.
Context {L : Libraries}.

Lemma deriveNext_mnemonic (chain : Chain) (s : AppState) :
  mnemonic (deriveNext chain s) = mnemonic s.
Proof.
  destruct chain; cbn [deriveNext];
    unfold generateSolanaWallet, generateEthereumWallet;
    destruct (truthy (mnemonic s)); cbn [negb]; try done.
  - by destruct (newSolanaWallet _ _).
  - by destruct (newEthereumWallet _ _).
Qed.

Lemma deriveNext_other_chain (c c' : Chain) (s : AppState) :
  c <> c' ->
  get_chain c' (wallets (deriveNext c s)) = get_chain c' (wallets s).
Proof.
  intros Hne. destruct c; cbn [deriveNext];
    unfold generateSolanaWallet, generateEthereumWallet;
    destruct (truthy (mnemonic s)); cbn [negb]; try done.
  - destruct (newSolanaWallet _ _); [|done].
    cbn [setError setWallets wallets]. by apply get_set_chain_other.
  - destruct (newEthereumWallet _ _); [|done].
    cbn [setError setWallets wallets]. by apply get_set_chain_other.
Qed.

Lemma removeWallet_other_chain (c c' : Chain) (i : nat) (s : AppState) :
  c <> c' ->
  get_chain c' (wallets (removeWallet c i s)) = get_chain c' (wallets s).
Proof. intros Hne. unfold removeWallet. cbn. by apply get_set_chain_other. Qed.

Lemma removeWallet_out_of_range (c : Chain) (i : nat) (s : AppState) :
  length (get_chain c (wallets s)) <= i -> removeWallet c i s = s.
Proof.
  intros Hi. unfold removeWallet, setWallets.
  rewrite js_filter_delete, delete_out_of_range by done.
  rewrite set_get_chain. apply AppState_eta.
Qed.

End Frames.

(** ** The invariant holds in every reachable state *)

Section Invariant.
Context {L : Libraries}.

Lemma derived_from_mnemonic_empty (s : AppState) :
  wallets s = no_wallets -> derived_from_mnemonic s.
Proof. intros Hw c w. rewrite Hw. destruct c; cbn; by intros ?%elem_of_nil. Qed.

Lemma derived_from_mnemonic_same (s s' : AppState) :
  mnemonic s' = mnemonic s -> wallets s' = wallets s ->
  derived_from_mnemonic s -> derived_from_mnemonic s'.
Proof. intros Hm Hw H c w. rewrite Hm, Hw. apply H. Qed.

Lemma derived_from_mnemonic_deriveNext (c : Chain) (s : AppState) :
  derived_from_mnemonic s -> derived_from_mnemonic (deriveNext c s).
Proof.
  intros Hs.
  destruct (truthy (mnemonic s)) eqn:Hm;
    [|by rewrite deriveNext_no_mnemonic].
  destruct (newWallet c (mnemonic s) (length (get_chain c (wallets s)))) as [w|err] eqn:Hw.
  - intros c' w'. rewrite (deriveNext_Return c s w) by done.
    cbn [setError setWallets wallets mnemonic].
    destruct (decide (c = c')) as [<-|Hne].
    + rewrite get_set_chain. intros [Hin| ->%list_elem_of_singleton]%elem_of_app.
      * by apply Hs.
      * destruct (newWallet_fields _ _ _ _ Hw) as [-> _]. exact Hw.
    + rewrite get_set_chain_other by done. apply Hs.
  - destruct (deriveNext_Throw c s err Hm Hw) as [Hwal Hmn].
    by apply (derived_from_mnemonic_same s).
Qed.

Lemma derived_from_mnemonic_removeWallet (c : Chain) (i : nat) (s : AppState) :
  derived_from_mnemonic s -> derived_from_mnemonic (removeWallet c i s).
Proof.
  intros Hs c' w.
  change (mnemonic (removeWallet c i s)) with (mnemonic s).
  destruct (decide (c = c')) as [<-|Hne].
  - rewrite removeWallet_registry. intros Hin%list_elem_of_delete_inv. by apply Hs.
  - rewrite removeWallet_other_chain by done. apply Hs.
Qed.

Lemma derived_from_mnemonic_handle (e : Event) (s : AppState) :
  derived_from_mnemonic s -> derived_from_mnemonic (handle e s).
Proof.
  intros Hs. destruct e as [v| |r| | | |c|c i]; cbn [handle].
  - by apply (derived_from_mnemonic_same s).
  - by apply (derived_from_mnemonic_same s).
  - destruct r as [m|err].
    + by apply derived_from_mnemonic_empty.
    + by apply (derived_from_mnemonic_same s).
  - unfold importMnemonic.
    destruct (truthy (trim (customMnemonic s))); cbn [negb];
      [|by apply (derived_from_mnemonic_same s)].
    destruct (validateMnemonic (trim (customMnemonic s))); cbn [negb];
      [|by apply (derived_from_mnemonic_same s)].
    by apply derived_from_mnemonic_empty.
  - by apply (derived_from_mnemonic_same s).
  - by apply derived_from_mnemonic_empty.
  - by apply derived_from_mnemonic_deriveNext.
  - by apply derived_from_mnemonic_removeWallet.
Qed.

Lemma derived_from_mnemonic_run (es : list Event) (s : AppState) :
  derived_from_mnemonic s -> derived_from_mnemonic (run es s).
Proof.
  revert s. induction es as [|e es IH]; intros s Hs; [done|].
  cbn [run]. by apply IH, derived_from_mnemonic_handle.
Qed.

Lemma reachable_derived_from_mnemonic (s : AppState) :
  reachable s -> derived_from_mnemonic s.
Proof.
  intros [es <-]. apply derived_from_mnemonic_run.
  by apply derived_from_mnemonic_empty.
Qed.

End Invariant.

(** ** Runs of the scenarios *)

Section Scenarios.
Context {L : Libraries}.

Lemma run_app (es1 es2 : list Event) (s : AppState) :
  run (es1 ++ es2) s = run es2 (run es1 s).
Proof. revert s. induction es1 as [|e es1 IH]; intros s; [done|]. cbn. apply IH. Qed.

Lemma run_import_phrase (M : string) (s0 : AppState) :
  truthy (trim M) = true -> validateMnemonic (trim M) = true ->
  run (import_phrase M) s0 =
    {| mnemonic := trim M; customMnemonic := M; wallets := no_wallets;
       showMnemonic := showMnemonic s0; error := ""; isGenerating := isGenerating s0 |}.
Proof.
  intros Ht Hv. cbn [import_phrase run handle].
  rewrite importMnemonic_accepts; [reflexivity | exact Ht | exact Hv].
Qed.

Lemma deriveNext_literal (c : Chain) (m cm er : string) (ws : WalletState)
    (sh ig : bool) (w : WalletData) :
  truthy m = true ->
  newWallet c m (length (get_chain c ws)) = Return w ->
  deriveNext c {| mnemonic := m; customMnemonic := cm; wallets := ws;
                  showMnemonic := sh; error := er; isGenerating := ig |} =
    {| mnemonic := m; customMnemonic := cm;
       wallets := set_chain c (get_chain c ws ++ [w]) ws;
       showMnemonic := sh; error := ""; isGenerating := ig |}.
Proof. intros Ht Hw. by rewrite (deriveNext_Return c _ w). Qed.

Lemma run_add_three_remove_second (M : string) (w0 w1 w2 : WalletData) :
  truthy (trim M) = true -> validateMnemonic (trim M) = true ->
  newSolanaWallet (trim M) 0 = Return w0 ->
  newSolanaWallet (trim M) 1 = Return w1 ->
  newSolanaWallet (trim M) 2 = Return w2 ->
  run (add_three_remove_second M) initialState =
    {| mnemonic := trim M; customMnemonic := M;
       wallets := {| solana := [w0; w2]; ethereum := [] |};
       showMnemonic := false; error := ""; isGenerating := false |}.
Proof.
  intros Ht Hv H0 H1 H2. unfold add_three_remove_second.
  rewrite run_app, run_import_phrase by done.
  set (m := trim M) in *. clearbody m.
  cbn [run handle no_wallets initialState showMnemonic isGenerating].
  rewrite (deriveNext_literal Solana _ _ _ _ _ _ w0); [| exact Ht | exact H0].
  cbn [set_chain get_chain solana ethereum app].
  rewrite (deriveNext_literal Solana _ _ _ _ _ _ w1); [| exact Ht | exact H1].
  cbn [set_chain get_chain solana ethereum app].
  rewrite (deriveNext_literal Solana _ _ _ _ _ _ w2); [| exact Ht | exact H2].
  reflexivity.
Qed.

Lemma feasible_app (es1 es2 : list Event) (s : AppState) :
  feasible (es1 ++ es2) s = feasible es1 s && feasible es2 (run es1 s).
Proof.
  revert s. induction es1 as [|e es1 IH]; intros s; [done|].
  cbn [app feasible run]. by rewrite IH, andb_assoc.
Qed.

(** With a valid mnemonic the page shows the wallet sections. *)
Lemma enabled_add_literal (c : Chain) (m cm er : string) (ws : WalletState) (sh ig : bool) :
  truthy m = true -> validateMnemonic m = true ->
  enabled (ClickAddWallet c)
    {| mnemonic := m; customMnemonic := cm; wallets := ws;
       showMnemonic := sh; error := er; isGenerating := ig |} = true.
Proof. intros Ht Hv. cbn. unfold isValidMnemonic. cbn. by rewrite Ht, Hv. Qed.

Lemma enabled_remove_literal (c : Chain) (i : nat) (m cm er : string)
    (ws : WalletState) (sh ig : bool) :
  truthy m = true -> validateMnemonic m = true ->
  enabled (ClickRemove c i)
    {| mnemonic := m; customMnemonic := cm; wallets := ws;
       showMnemonic := sh; error := er; isGenerating := ig |}
  = Nat.ltb i (length (get_chain c ws)).
Proof. intros Ht Hv. cbn. unfold isValidMnemonic. cbn. by rewrite Ht, Hv. Qed.

(** Every click of the scenario of C1 and C2 is on a control the page shows. *)
Lemma feasible_add_three_remove_second (M : string) (w0 w1 w2 : WalletData) :
  truthy (trim M) = true -> validateMnemonic (trim M) = true ->
  newSolanaWallet (trim M) 0 = Return w0 ->
  newSolanaWallet (trim M) 1 = Return w1 ->
  newSolanaWallet (trim M) 2 = Return w2 ->
  feasible (add_three_remove_second M ++ [ClickAddWallet Solana]) initialState = true.
Proof.
  intros Ht Hv H0 H1 H2.
  rewrite feasible_app, (run_add_three_remove_second M w0 w1 w2) by done.
  unfold add_three_remove_second.
  rewrite feasible_app, run_import_phrase by done.
  set (m := trim M) in *. clearbody m.
  replace (feasible (import_phrase M) initialState) with true by reflexivity.
  cbn [feasible handle andb no_wallets].
  rewrite !enabled_add_literal by done. cbn [andb].
  rewrite (deriveNext_literal Solana _ _ _ _ _ _ w0); [| exact Ht | exact H0].
  cbn [set_chain get_chain solana ethereum app].
  rewrite !enabled_add_literal by done. cbn [andb].
  rewrite (deriveNext_literal Solana _ _ _ _ _ _ w1); [| exact Ht | exact H1].
  cbn [set_chain get_chain solana ethereum app].
  rewrite !enabled_add_literal by done. cbn [andb].
  rewrite (deriveNext_literal Solana _ _ _ _ _ _ w2); [| exact Ht | exact H2].
  cbn [set_chain get_chain solana ethereum app].
  by rewrite enabled_remove_literal.
Qed.

End Scenarios.

(** * The claims *)

Section Claims.
Context {L : Libraries}.

(** C1. The code at the scenario of the claim: after importing a valid
    phrase and deriving three Solana wallets (index fields 0, 1 and 2),
    removing the record whose index field is 1 leaves two records, and the
    next "Add Wallet" takes its index from the length of the registry: the
    new record has index 2, the index of a record that is still there, and
    not 3. *)
Theorem removal_rewinds_next_index (M : string) (w0 w1 w2 : WalletData) :
  truthy (trim M) = true -> validateMnemonic (trim M) = true ->
  newSolanaWallet (trim M) 0 = Return w0 ->
  newSolanaWallet (trim M) 1 = Return w1 ->
  newSolanaWallet (trim M) 2 = Return w2 ->
  let before := run (add_three_remove_second M) initialState in
  let after := generateSolanaWallet before in
  feasible (add_three_remove_second M ++ [ClickAddWallet Solana]) initialState = true /\
  index w0 = 0 /\ index w1 = 1 /\ index w2 = 2 /\
  solana (wallets before) = [w0; w2] /\
  exists w, solana (wallets after) = (solana (wallets before) ++ [w])%list /\
            index w = 2 /\ index w <> 3.
Proof.
  intros Ht Hv H0 H1 H2 before after.
  split; [by apply (feasible_add_three_remove_second M w0 w1 w2)|].
  destruct (newWallet_fields Solana _ _ _ H0) as [I0 _].
  destruct (newWallet_fields Solana _ _ _ H1) as [I1 _].
  destruct (newWallet_fields Solana _ _ _ H2) as [I2 _].
  assert (before = {| mnemonic := trim M; customMnemonic := M;
                      wallets := {| solana := [w0; w2]; ethereum := [] |};
                      showMnemonic := false; error := ""; isGenerating := false |})
    as Hb by (by apply (run_add_three_remove_second M w0 w1 w2)).
  do 3 (split; [done|]). split; [by rewrite Hb|].
  exists w2. subst after. rewrite Hb.
  change generateSolanaWallet with (deriveNext Solana).
  rewrite (deriveNext_literal Solana _ _ _ _ _ _ w2); [| exact Ht | exact H2].
  rewrite I2. split; [done|]. split; [done | lia].
Qed.

(** C2. The code at a reachable state that breaks the invariant of the
    claim: in the scenario of C1 followed by one more "Add Wallet", the
    Solana registry holds the record of index 2 twice, so two records of one
    registry have the same derivation path and the same address. *)
Theorem derivation_path_reused_after_removal (M : string) (w0 w1 w2 : WalletData) :
  truthy (trim M) = true -> validateMnemonic (trim M) = true ->
  newSolanaWallet (trim M) 0 = Return w0 ->
  newSolanaWallet (trim M) 1 = Return w1 ->
  newSolanaWallet (trim M) 2 = Return w2 ->
  let s := run (add_three_remove_second M ++ [ClickAddWallet Solana]) initialState in
  feasible (add_three_remove_second M ++ [ClickAddWallet Solana]) initialState = true /\
  reachable s /\
  solana (wallets s) = [w0; w2; w2] /\
  ~ NoDup (derivationPath <$> solana (wallets s)) /\
  ~ NoDup (address <$> solana (wallets s)).
Proof.
  intros Ht Hv H0 H1 H2 s.
  assert (solana (wallets s) = [w0; w2; w2]) as Hs.
  { subst s. rewrite run_app, (run_add_three_remove_second M w0 w1 w2) by done.
    cbn [run handle].
    by rewrite (deriveNext_literal Solana _ _ _ _ _ _ w2). }
  split; [by apply (feasible_add_three_remove_second M w0 w1 w2)|].
  split; [by eexists|]. split; [done|]. rewrite Hs. cbn.
  split; intros Hnd; apply NoDup_cons in Hnd as [_ Hnd];
    apply NoDup_cons in Hnd as [Hnotin _]; apply Hnotin; left.
Qed.

(** C3, as amended. With no mnemonic set, "Add Wallet" for either chain
    returns at once: the whole state, the error message included, is what it
    was, and nothing is reported. *)
Theorem deriveNext_without_mnemonic_is_silent (chain : Chain) (s : AppState) :
  mnemonic s = "" -> deriveNext chain s = s.
Proof. intros Hm. apply deriveNext_no_mnemonic. by rewrite Hm. Qed.

(** C10. Deriving or removing a wallet of one chain leaves the registry of
    the other chain and the current mnemonic as they were. *)
Theorem chain_operations_are_confined (s : AppState) (i : nat) :
  (ethereum (wallets (generateSolanaWallet s)) = ethereum (wallets s)
   /\ mnemonic (generateSolanaWallet s) = mnemonic s)
  /\ (ethereum (wallets (removeWallet Solana i s)) = ethereum (wallets s)
      /\ mnemonic (removeWallet Solana i s) = mnemonic s)
  /\ (solana (wallets (generateEthereumWallet s)) = solana (wallets s)
      /\ mnemonic (generateEthereumWallet s) = mnemonic s)
  /\ (solana (wallets (removeWallet Ethereum i s)) = solana (wallets s)
      /\ mnemonic (removeWallet Ethereum i s) = mnemonic s).
Proof.
  split; [|split; [|split]]; split.
  - by apply (deriveNext_other_chain Solana Ethereum).
  - apply (deriveNext_mnemonic Solana).
  - by apply (removeWallet_other_chain Solana Ethereum).
  - reflexivity.
  - by apply (deriveNext_other_chain Ethereum Solana).
  - apply (deriveNext_mnemonic Ethereum).
  - by apply (removeWallet_other_chain Ethereum Solana).
  - reflexivity.
Qed.


(** C4, as amended. In every reachable state the derivation path of a
    Solana record is m/44'/501'/{index}'/0', which has the form of the
    specification with the record's index as account, and the derivation
    path of an Ethereum record is m/44'/60'/{index}, with the index as a
    last, unhardened segment; the first Ethereum wallet is derived at
    m/44'/60'/0. *)
Theorem derivationPath_of_index (s : AppState) :
  reachable s ->
  (forall w, w ∈ solana (wallets s) ->
     derivationPath w = "m/44'/501'/" ++ pretty (index w) ++ "'/0'"
     /\ spec_DerivationPath Solana (index w) (derivationPath w))
  /\ (forall w, w ∈ ethereum (wallets s) ->
        derivationPath w = "m/44'/60'/" ++ pretty (index w))
  /\ ethereum_derivationPath 0 = "m/44'/60'/0".
Proof.
  intros Hr%reachable_derived_from_mnemonic. split; [|split; [|done]].
  - intros w Hw. destruct (newWallet_fields Solana _ _ _ (Hr Solana w Hw)) as [_ ->].
    split; [done|]. right. by exists "0".
  - intros w Hw. by destruct (newWallet_fields Ethereum _ _ _ (Hr Ethereum w Hw)) as [_ ->].
Qed.

(** C5, as amended. [removeWallet(chain, index)] identifies the record by
    its position in the chain's sequence: the registry afterwards is the old
    one without the element at that position, the other records in their
    order; one record is removed when the position exists, and when it does
    not the whole state is unchanged; the error message is never touched. *)
Theorem removeWallet_by_position (chain : Chain) (i : nat) (s : AppState) :
  let l := get_chain chain (wallets s) in
  let l' := get_chain chain (wallets (removeWallet chain i s)) in
  l' = (take i l ++ drop (S i) l)%list
  /\ (i < length l -> length l' = length l - 1)
  /\ (length l <= i -> removeWallet chain i s = s)
  /\ error (removeWallet chain i s) = error s.
Proof.
  intros l l'. subst l l'. rewrite removeWallet_registry.
  split; [apply delete_take_drop|]. split; [|split; [|done]].
  - intros Hi. apply length_delete. by apply lookup_lt_is_Some.
  - apply removeWallet_out_of_range.
Qed.

(** C6. Two runs from the same phrase: importing [M] and adding a Solana
    wallet, then clearing, importing [M] again and adding a Solana wallet,
    gives the same record both times, so the same address and the same
    private key encoding. *)
Theorem two_run_determinism (M : string) (s0 : AppState) (R1 : WalletData) :
  truthy (trim M) = true -> validateMnemonic (trim M) = true ->
  newSolanaWallet (trim M) 0 = Return R1 ->
  let run1 := run (import_phrase M ++ [ClickAddWallet Solana]) s0 in
  let run2 := run ([ClickClear] ++ import_phrase M ++ [ClickAddWallet Solana]) run1 in
  solana (wallets run1) = [R1]
  /\ exists R2, solana (wallets run2) = [R2]
                /\ address R1 = address R2 /\ privateKey R1 = privateKey R2.
Proof.
  intros Ht Hv HR run1 run2.
  assert (forall s, solana (wallets (run (import_phrase M ++ [ClickAddWallet Solana]) s))
                    = [R1]) as Hrun.
  { intros s. rewrite run_app, run_import_phrase by done. cbn [run handle no_wallets].
    by rewrite (deriveNext_literal Solana _ _ _ _ _ _ R1). }
  split; [apply Hrun|]. exists R1. split; [|done].
  subst run2. rewrite run_app. apply Hrun.
Qed.

(** C7. Importing a candidate that is empty after trimming or that
    [validateMnemonic] rejects shows one of the two validation messages and
    changes nothing else: the mnemonic and both registries are as before. *)
Theorem importMnemonic_invalid (s : AppState) :
  truthy (trim (customMnemonic s)) = false
  \/ validateMnemonic (trim (customMnemonic s)) = false ->
  let s' := importMnemonic s in
  (error s' = "Please enter a mnemonic phrase"
   \/ error s' = "Invalid mnemonic phrase. Please check and try again.")
  /\ mnemonic s' = mnemonic s
  /\ solana (wallets s') = solana (wallets s)
  /\ ethereum (wallets s') = ethereum (wallets s)
  /\ s' = setError (error s') s.
Proof.
  intros H s'. subst s'. unfold importMnemonic.
  destruct (truthy (trim (customMnemonic s))) eqn:Ht; cbn [negb].
  - destruct H as [H|H]; [done|]. rewrite H. cbn [negb]. split; [by right|done].
  - split; [by left|done].
Qed.


(** C9. A mnemonic that was generated, and a candidate that was accepted by
    "Import Seed Phrase", become the current mnemonic and leave both
    registries empty, whatever they held before. *)
Theorem new_mnemonic_resets_registries (s : AppState) :
  (forall newMnemonic : string,
     let s' := generateNewMnemonic_timeout (Return newMnemonic) s in
     mnemonic s' = newMnemonic
     /\ solana (wallets s') = [] /\ ethereum (wallets s') = [])
  /\ (truthy (trim (customMnemonic s)) = true ->
      validateMnemonic (trim (customMnemonic s)) = true ->
      let s' := importMnemonic s in
      mnemonic s' = trim (customMnemonic s)
      /\ solana (wallets s') = [] /\ ethereum (wallets s') = []).
Proof.
  split; [done|]. intros Ht Hv s'. subst s'. by rewrite importMnemonic_accepts.
Qed.

End Claims.

(** ** The stand-in meets the contract *)



(** A valid phrase followed by a no-break space is imported: [trim] takes
    the U+00A0 away before the phrase is validated. *)
Example importMnemonic_trims_no_break_space :
  let candidate := abandon_about ++ string_of_codes [194; 160] in
  let s := importMnemonic (L := standin) (setCustomMnemonic candidate initialState) in
  validateMnemonic (Libraries := standin) candidate = false
  /\ mnemonic s = abandon_about /\ error s = "".
Proof. vm_compute. done. Qed.

(** ** Counterexamples *)

(** C3, as stated, fails. In the initial state no mnemonic is set and no
    message is shown; after "Add Wallet", for either chain, there is still no
    message: the handler returned without reporting anything. *)
Lemma deriveNext_without_mnemonic_reports_nothing :
  mnemonic initialState = ""
  /\ error initialState = ""
  /\ error (generateSolanaWallet (L := standin) initialState) = ""
  /\ error (generateEthereumWallet (L := standin) initialState) = "".
Proof. by vm_compute. Qed.

(** C4, as stated, fails. The first Ethereum wallet derived from the
    twelve-word phrase has index 0 and derivation path m/44'/60'/0: that is
    not of the form m/44'/60'/{account}'[/{change}'], and it is not
    m/44'/60'/0'/0/0. *)
Lemma first_ethereum_path_not_standard :
  let s := run (L := standin)
               (import_phrase abandon_about ++ [ClickAddWallet Ethereum]) initialState in
  exists w, ethereum (wallets s) = [w]
            /\ index w = 0
            /\ derivationPath w = "m/44'/60'/0"
            /\ ~ spec_DerivationPath Ethereum (index w) (derivationPath w)
            /\ derivationPath w <> "m/44'/60'/0'/0/0".
Proof.
  eexists. split; [by vm_compute|]. cbn [index derivationPath].
  split; [done|]. split; [by vm_compute|]. split; [|by vm_compute].
  intros [H|[change H]]; vm_compute in H; discriminate H.
Qed.

(** C5, as stated, fails. The argument of [removeWallet] is a position, and
    one position stands for different addresses: with two Solana wallets of
    different addresses, removing at position 0 twice removes first one and
    then the other. And one address does not fix the record that goes: after
    four Solana wallets, the first two removed and one more added (every
    click on a control the page showed), the registry holds the record of
    index 2 at positions 0 and 2, so these two cards have one address, yet
    removing at position 0 and removing at position 2 give different
    registries, and removing at position 2 is not the removal by address of
    the specification. *)
Lemma removal_is_not_by_address :
  let two := run (L := standin)
                 (import_phrase abandon_about
                  ++ [ClickAddWallet Solana; ClickAddWallet Solana]) initialState in
  let clicks := (import_phrase abandon_about
                 ++ [ClickAddWallet Solana; ClickAddWallet Solana; ClickAddWallet Solana;
                     ClickAddWallet Solana; ClickRemove Solana 0; ClickRemove Solana 0;
                     ClickAddWallet Solana])%list in
  let s := run (L := standin) clicks initialState in
  (exists a b,
     solana (wallets two) = [a; b]
     /\ address a <> address b
     /\ solana (wallets (removeWallet Solana 0 two)) = [b]
     /\ solana (wallets (removeWallet Solana 0 (removeWallet Solana 0 two))) = [])
  /\ feasible (L := standin) clicks initialState = true
  /\ exists w w3,
       solana (wallets s) = [w; w3; w]
       /\ solana (wallets (removeWallet Solana 0 s)) = [w3; w]
       /\ solana (wallets (removeWallet Solana 2 s)) = [w; w3]
       /\ [w3; w] <> [w; w3]
       /\ solana (wallets (removeWallet Solana 2 s))
          <> remove_by_address (address w) (solana (wallets s)).
Proof.
  split.
  { eexists _, _. split; [by vm_compute|]. split; [by vm_compute|].
    split; by vm_compute. }
  split; [by vm_compute|]. eexists _, _.
  split; [by vm_compute|]. split; [by vm_compute|]. split; [by vm_compute|].
  split; by vm_compute.
Qed.

(** ** The theorems at concrete inputs *)

Lemma removal_rewinds_next_index_witness :
  truthy (trim abandon_about) = true
  /\ validateMnemonic (Libraries := standin) (trim abandon_about) = true
  /\ exists w0 w2 w,
       solana (wallets (run (L := standin) (add_three_remove_second abandon_about)
                            initialState)) = [w0; w2]
       /\ solana (wallets (generateSolanaWallet (L := standin)
                             (run (L := standin) (add_three_remove_second abandon_about)
                                  initialState))) = [w0; w2; w]
       /\ index w = 2.
Proof.
  split; [reflexivity|]. split; [reflexivity|].
  edestruct (removal_rewinds_next_index (L := standin) abandon_about)
    as (_ & _ & _ & _ & Hb & w & Ha & Hi & _);
    [reflexivity | reflexivity | vm_compute; reflexivity ..|].
  eexists _, _, w. split; [exact Hb|]. split; [|exact Hi].
  rewrite Ha, Hb. reflexivity.
Defined.

Lemma derivation_path_reused_after_removal_witness :
  truthy (trim abandon_about) = true
  /\ validateMnemonic (Libraries := standin) (trim abandon_about) = true
  /\ ~ NoDup (derivationPath <$>
              solana (wallets (run (L := standin)
                                   (add_three_remove_second abandon_about
                                    ++ [ClickAddWallet Solana]) initialState))).
Proof.
  split; [reflexivity|]. split; [reflexivity|].
  edestruct (derivation_path_reused_after_removal (L := standin) abandon_about)
    as (_ & _ & _ & Hp & _);
    [reflexivity | reflexivity | vm_compute; reflexivity ..|].
  exact Hp.
Defined.

Lemma deriveNext_without_mnemonic_is_silent_witness :
  mnemonic initialState = ""
  /\ deriveNext (L := standin) Solana initialState = initialState
  /\ deriveNext (L := standin) Ethereum initialState = initialState.
Proof.
  split; [reflexivity|].
  split; apply (deriveNext_without_mnemonic_is_silent (L := standin)); reflexivity.
Defined.

Lemma derivationPath_of_index_witness :
  let s := run (L := standin)
               (import_phrase abandon_about
                ++ [ClickAddWallet Solana; ClickAddWallet Ethereum]) initialState in
  reachable (L := standin) s
  /\ (forall w, w ∈ solana (wallets s) ->
        derivationPath w = "m/44'/501'/" ++ pretty (index w) ++ "'/0'")
  /\ (forall w, w ∈ ethereum (wallets s) ->
        derivationPath w = "m/44'/60'/" ++ pretty (index w)).
Proof.
  intros s.
  assert (reachable (L := standin) s) as Hr by (eexists; reflexivity).
  split; [exact Hr|].
  destruct (derivationPath_of_index (L := standin) s Hr) as (Hsol & Heth & _).
  split; [|exact Heth]. intros w Hw. exact (proj1 (Hsol w Hw)).
Defined.

Lemma removeWallet_by_position_witness :
  let s := run (L := standin)
               (import_phrase abandon_about
                ++ [ClickAddWallet Solana; ClickAddWallet Solana]) initialState in
  length (solana (wallets s)) = 2
  /\ length (solana (wallets (removeWallet Solana 0 s))) = 1
  /\ removeWallet Solana 2 s = s.
Proof.
  intros s. split; [reflexivity|].
  destruct (removeWallet_by_position Solana 0 s) as (_ & Hlt & _ & _).
  destruct (removeWallet_by_position Solana 2 s) as (_ & _ & Hge & _).
  split; [apply Hlt | apply Hge]; vm_compute; lia.
Defined.

Lemma two_run_determinism_witness :
  truthy (trim abandon_about) = true
  /\ validateMnemonic (Libraries := standin) (trim abandon_about) = true
  /\ exists R1 R2,
       solana (wallets (run (L := standin)
                            (import_phrase abandon_about ++ [ClickAddWallet Solana])
                            initialState)) = [R1]
       /\ solana (wallets
                    (run (L := standin)
                       ([ClickClear] ++ import_phrase abandon_about
                        ++ [ClickAddWallet Solana])
                       (run (L := standin)
                          (import_phrase abandon_about ++ [ClickAddWallet Solana])
                          initialState))) = [R2]
       /\ address R1 = address R2 /\ privateKey R1 = privateKey R2.
Proof.
  split; [reflexivity|]. split; [reflexivity|].
  edestruct (two_run_determinism (L := standin) abandon_about initialState)
    as (H1 & R2 & H2 & Ha & Hk);
    [reflexivity | reflexivity | vm_compute; reflexivity |].
  eexists _, R2. split; [exact H1|]. split; [exact H2|]. split; [exact Ha | exact Hk].
Defined.

Lemma importMnemonic_invalid_witness :
  let s := setCustomMnemonic "not a real phrase"
             (run (L := standin)
                  (import_phrase abandon_about ++ [ClickAddWallet Solana]) initialState) in
  validateMnemonic (Libraries := standin) (trim (customMnemonic s)) = false
  /\ mnemonic s = abandon_about
  /\ length (solana (wallets s)) = 1
  /\ error (importMnemonic (L := standin) s)
     = "Invalid mnemonic phrase. Please check and try again."
  /\ mnemonic (importMnemonic (L := standin) s) = mnemonic s
  /\ solana (wallets (importMnemonic (L := standin) s)) = solana (wallets s)
  /\ ethereum (wallets (importMnemonic (L := standin) s)) = ethereum (wallets s).
Proof.
  intros s. split; [reflexivity|]. split; [reflexivity|]. split; [reflexivity|].
  destruct (importMnemonic_invalid (L := standin) s) as (_ & Hm & Hsol & Heth & _);
    [right; reflexivity|].
  split; [reflexivity|]. split; [exact Hm|]. split; [exact Hsol | exact Heth].
Defined.


Lemma new_mnemonic_resets_registries_witness :
  let s := setCustomMnemonic abandon_about
             (run (L := standin)
                  (import_phrase abandon_about
                   ++ [ClickAddWallet Solana; ClickAddWallet Ethereum]) initialState) in
  truthy (trim (customMnemonic s)) = true
  /\ validateMnemonic (Libraries := standin) (trim (customMnemonic s)) = true
  /\ length (solana (wallets s)) = 1 /\ length (ethereum (wallets s)) = 1
  /\ mnemonic (importMnemonic (L := standin) s) = abandon_about
  /\ solana (wallets (importMnemonic (L := standin) s)) = []
  /\ ethereum (wallets (importMnemonic (L := standin) s)) = [].
Proof.
  intros s. split; [reflexivity|]. split; [reflexivity|].
  split; [reflexivity|]. split; [reflexivity|].
  destruct (new_mnemonic_resets_registries (L := standin) s) as [_ Himp].
  destruct Himp as (Hm & Hsol & Heth); [reflexivity | reflexivity |].
  split; [exact Hm|]. split; [exact Hsol | exact Heth].
Defined.

(** * Further properties of the component *)

(** ** Strings *)

Lemma length_append (s1 s2 : string) :
  String.length (s1 ++ s2) = String.length s1 + String.length s2.
Proof. induction s1 as [|a s1 IH]; [done|]. simpl. f_equal. exact IH. Qed.

Lemma append_inv_tail (s1 s2 t : string) : s1 ++ t = s2 ++ t -> s1 = s2.
Proof.
  revert s2. induction s1 as [|a s1 IH]; intros [|b s2] H; [done|..].
  - apply (f_equal String.length) in H. rewrite !length_append in H. cbn in H. lia.
  - apply (f_equal String.length) in H. rewrite !length_append in H. cbn in H. lia.
  - cbn in H. injection H as -> H. f_equal. by apply IH.
Qed.

Lemma substring_0_all (n : nat) (s : string) :
  String.length s <= n -> substring 0 n s = s.
Proof.
  revert n. induction s as [|a s IH]; intros [|n] Hn; cbn in *; try done; try lia.
  f_equal. apply IH. lia.
Qed.

Lemma substring_length (n m : nat) (s : string) :
  n + m <= String.length s -> String.length (substring n m s) = m.
Proof.
  revert n m. induction s as [|a s IH]; intros [|n] [|m] H; cbn in *;
    try done; try lia.
  - f_equal. apply (IH 0 m). lia.
  - apply (IH n 0). lia.
  - apply (IH n (S m)). lia.
Qed.

(** ** [truncateAddress] *)

(** X16. For an address of at least [chars] characters, [chars] at least 1,
    the abbreviation is its first [chars] characters, three dots and its last
    [chars] characters: [2 * chars + 3] characters in all, whatever the
    length of the address. *)
Theorem truncateAddress_long (address : string) (chars : nat) :
  0 < chars -> chars <= String.length address ->
  truncateAddress address (Z.of_nat chars)
  = substring 0 chars address ++ "..."
    ++ substring (String.length address - chars) chars address
  /\ String.length (truncateAddress address (Z.of_nat chars)) = 2 * chars + 3.
Proof.
  intros Hpos Hle.
  assert (truncateAddress address (Z.of_nat chars)
          = substring 0 chars address ++ "..."
            ++ substring (String.length address - chars) chars address) as ->.
  { unfold truncateAddress, slice, relative_index.
    destruct (Z.ltb_spec 0 0) as [?|_]; [lia|].
    destruct (Z.ltb_spec (Z.of_nat chars) 0) as [?|_]; [lia|].
    destruct (Z.ltb_spec (- Z.of_nat chars) 0) as [_|?]; [|lia].
    f_equal; [|f_equal]; f_equal; lia. }
  split; [done|].
  rewrite !length_append, !substring_length by lia. cbn. lia.
Qed.

(** X17. An address of at most [chars] characters is not shortened: the
    abbreviation is the whole address, three dots and the whole address
    again. *)
Theorem truncateAddress_short (address : string) (chars : nat) :
  String.length address <= chars ->
  truncateAddress address (Z.of_nat chars) = address ++ "..." ++ address.
Proof.
  intros Hle. unfold truncateAddress, slice, relative_index.
  destruct (Z.ltb_spec 0 0) as [?|_]; [lia|].
  destruct (Z.ltb_spec (Z.of_nat chars) 0) as [?|_]; [lia|].
  assert (forall a b, a = 0 -> String.length address <= b ->
                      substring a b address = address) as Hall
    by (intros a b ->; apply substring_0_all).
  f_equal; [|f_equal]; apply Hall; try lia.
  all: destruct (Z.ltb_spec (- Z.of_nat chars) 0); lia.
Qed.

(** X18. With [chars] zero nothing is cut at the end: [slice(-0)] is the
    whole string, so the abbreviation is three dots and the whole address. *)
Theorem truncateAddress_zero (address : string) :
  truncateAddress address 0 = "..." ++ address.
Proof.
  unfold truncateAddress, slice, relative_index. change (- 0)%Z with 0%Z.
  destruct (Z.ltb_spec 0 0) as [?|_]; [lia|].
  set (len := Z.of_nat (String.length address)).
  replace (Z.to_nat (Z.min 0 len)) with 0 by lia.
  replace (Z.to_nat (Z.max (Z.min 0 len - Z.min 0 len) 0)) with 0 by lia.
  replace (Z.to_nat (Z.max (len - Z.min 0 len) 0)) with (String.length address) by lia.
  assert (substring 0 0 address = "") as -> by (by destruct address).
  by rewrite substring_0_all.
Qed.

(** ** Derivation paths *)

(** X1. The derivation path determines the chain and the index: two
    wallets get the same path only if they are for the same chain and have
    the same index. *)
Theorem chain_derivationPath_inj (c c' : Chain) (i j : nat) :
  chain_derivationPath c i = chain_derivationPath c' j -> c = c' /\ i = j.
Proof.
  destruct c, c'; cbn [chain_derivationPath];
    unfold solana_derivationPath, ethereum_derivationPath; intros H.
  - split; [done|]. do 2 apply (inj (String.append _)) in H.
    apply append_inv_tail in H. by apply (inj (pretty (A := nat))) in H.
  - cbn in H. discriminate H.
  - cbn in H. discriminate H.
  - split; [done|]. do 2 apply (inj (String.append _)) in H.
    by apply (inj (pretty (A := nat))) in H.
Qed.

(** ** Invariants of the runs *)

Section Runs.
Context {L : Libraries}.

Lemma run_invariant (P : AppState -> Prop) :
  (forall e s, P s -> P (handle e s)) ->
  forall es s, P s -> P (run es s).
Proof.
  intros Hstep es. induction es as [|e es IH]; intros s Hs; [done|].
  cbn [run]. by apply IH, Hstep.
Qed.

Lemma set_chain_set_chain (c : Chain) (l l' : list WalletData) (ws : WalletState) :
  set_chain c l (set_chain c l' ws) = set_chain c l ws.
Proof. by destruct c. Qed.

Lemma importMnemonic_cases (s : AppState) :
  (exists msg, truthy msg = true /\ importMnemonic s = setError msg s)
  \/ (truthy (trim (customMnemonic s)) = true
      /\ validateMnemonic (trim (customMnemonic s)) = true
      /\ importMnemonic s =
           setWallets (fun _ => no_wallets)
             (setMnemonic (trim (customMnemonic s)) (setError "" s))).
Proof.
  unfold importMnemonic.
  destruct (truthy (trim (customMnemonic s))); cbn [negb];
    [|left; eexists; split; [|reflexivity]; reflexivity].
  destruct (validateMnemonic (trim (customMnemonic s))); cbn [negb];
    [by right | left; eexists; split; [|reflexivity]; reflexivity].
Qed.

Lemma message_or_unknown_truthy (err : JsError) :
  truthy (message_or_unknown err) = true.
Proof.
  unfold message_or_unknown. destruct (message err) as [m|]; [|done].
  by destruct (truthy m) eqn:Hm.
Qed.

Lemma deriveNext_cases (c : Chain) (s : AppState) :
  deriveNext c s = s
  \/ (exists w, truthy (mnemonic s) = true
        /\ newWallet c (mnemonic s) (length (get_chain c (wallets s))) = Return w
        /\ deriveNext c s =
             setError "" (setWallets (set_chain c (get_chain c (wallets s) ++ [w])) s))
  \/ (exists msg, truthy msg = true /\ deriveNext c s = setError msg s).
Proof.
  destruct (truthy (mnemonic s)) eqn:Hm; [|left; by apply deriveNext_no_mnemonic].
  destruct (newWallet c (mnemonic s) (length (get_chain c (wallets s)))) as [w|err] eqn:Hw.
  - right; left. exists w. by rewrite (deriveNext_Return c s w).
  - right; right. destruct c; cbn [deriveNext newWallet get_chain] in *;
      unfold generateSolanaWallet, generateEthereumWallet; rewrite Hm, Hw; cbn [negb];
      (eexists; split; [|reflexivity]); apply message_or_unknown_truthy || reflexivity.
Qed.

Lemma no_wallets_without_mnemonic_handle (e : Event) (s : AppState) :
  no_wallets_without_mnemonic s -> no_wallets_without_mnemonic (handle e s).
Proof.
  unfold no_wallets_without_mnemonic. intros Hs.
  destruct e as [v| |r| | | |c|c i]; cbn [handle]; try done.
  - by destruct r.
  - destruct (importMnemonic_cases s) as [(msg & _ & ->)|(_ & _ & ->)]; done.
  - destruct (deriveNext_cases c s) as [->|[(w & Hm & _ & ->)|(msg & _ & ->)]];
      [done| |done].
    cbn [setError setWallets mnemonic]. by rewrite Hm.
  - intros Hm. unfold removeWallet. cbn [setWallets wallets].
    rewrite (Hs Hm). by destruct c.
Qed.

Lemma reachable_no_wallets_without_mnemonic (s : AppState) :
  reachable s -> no_wallets_without_mnemonic s.
Proof.
  intros [es <-]. apply run_invariant; [apply no_wallets_without_mnemonic_handle|done].
Qed.

Lemma reachable_registry_mnemonic (c : Chain) (s : AppState) (w : WalletData) :
  reachable s -> w ∈ get_chain c (wallets s) -> truthy (mnemonic s) = true.
Proof.
  intros Hr Hw. destruct (truthy (mnemonic s)) eqn:Hm; [done|].
  rewrite (reachable_no_wallets_without_mnemonic s Hr Hm) in Hw.
  destruct c; by apply elem_of_nil in Hw.
Qed.

Lemma position_le_index_handle (e : Event) (s : AppState) :
  position_le_index s -> position_le_index (handle e s).
Proof.
  intros Hs.
  assert (forall s', wallets s' = no_wallets -> position_le_index s') as Hempty.
  { intros s' Hw c p w. rewrite Hw. by destruct c. }
  destruct e as [v| |r| | | |c|c i]; cbn [handle]; try done.
  - destruct r; [by apply Hempty | done].
  - destruct (importMnemonic_cases s) as [(msg & _ & ->)|(_ & _ & ->)];
      [done | by apply Hempty].
  - by apply Hempty.
  - destruct (deriveNext_cases c s) as [->|[(w & Hm & Hw & ->)|(msg & _ & ->)]];
      [done| |done].
    intros c' p w'. cbn [setError setWallets wallets].
    destruct (decide (c = c')) as [<-|Hne].
    + rewrite get_set_chain.
      intros [Hl|[Hp [Hp0 <-]%list_lookup_singleton_Some]]%lookup_app_Some.
      * by apply (Hs c).
      * destruct (newWallet_fields _ _ _ _ Hw) as [-> _]. lia.
    + rewrite get_set_chain_other by done. apply Hs.
  - intros c' p w. destruct (decide (c = c')) as [<-|Hne].
    + rewrite removeWallet_registry, list_lookup_delete.
      case_decide; intros Hl; apply (Hs c) in Hl; lia.
    + rewrite removeWallet_other_chain by done. apply Hs.
Qed.

Lemma numbered_handle (e : Event) (s : AppState) :
  match e with
  | ClickRemove c i => length (get_chain c (wallets s)) <= S i
  | _ => True
  end ->
  numbered s -> numbered (handle e s).
Proof.
  intros He Hs.
  assert (forall s', wallets s' = no_wallets -> numbered s') as Hempty.
  { intros s' Hw c p w. rewrite Hw. by destruct c. }
  destruct e as [v| |r| | | |c|c i]; cbn [handle]; try done.
  - destruct r; [by apply Hempty | done].
  - destruct (importMnemonic_cases s) as [(msg & _ & ->)|(_ & _ & ->)];
      [done | by apply Hempty].
  - by apply Hempty.
  - destruct (deriveNext_cases c s) as [->|[(w & Hm & Hw & ->)|(msg & _ & ->)]];
      [done| |done].
    intros c' p w'. cbn [setError setWallets wallets].
    destruct (decide (c = c')) as [<-|Hne].
    + rewrite get_set_chain.
      intros [Hl|[Hp [Hp0 <-]%list_lookup_singleton_Some]]%lookup_app_Some.
      * by apply (Hs c).
      * destruct (newWallet_fields _ _ _ _ Hw) as [-> _]. lia.
    + rewrite get_set_chain_other by done. apply Hs.
  - intros c' p w. destruct (decide (c = c')) as [<-|Hne].
    + rewrite removeWallet_registry, list_lookup_delete.
      case_decide; [apply Hs|].
      intros Hl. apply lookup_lt_Some in Hl. lia.
    + rewrite removeWallet_other_chain by done. apply Hs.
Qed.

Lemma numbered_run (es : list Event) (s : AppState) :
  removes_only_last es s = true -> numbered s -> numbered (run es s).
Proof.
  revert s. induction es as [|e es IH]; intros s Hes Hs; [done|].
  cbn [removes_only_last run] in *. apply andb_true_iff in Hes as [He Hes].
  apply IH; [done|]. apply numbered_handle; [|done].
  destruct e; try done. by apply Nat.leb_le.
Qed.

End Runs.

(** ** The registries *)

Section Registries.
Context {L : Libraries}.

Lemma delete_app_last {A : Type} (i : nat) (l : list A) (x : A) :
  i < length l -> delete i (l ++ [x])%list = (delete i l ++ [x])%list.
Proof.
  revert i. induction l as [|y l IH]; intros i Hi; cbn in Hi; [lia|].
  destruct i as [|i]; [done|]. cbn. f_equal. apply IH. lia.
Qed.

Lemma numbered_initialState : numbered initialState.
Proof. intros c p w. by destruct c. Qed.

(** X2. As long as every "Remove" click is on the last card of its list (or
    there is none), the record at position [p] of either registry has index
    [p]: the cards are numbered 1, 2, 3, ... in order. *)
Theorem registries_numbered (es : list Event) :
  removes_only_last es initialState = true ->
  forall c p w,
    get_chain c (wallets (run es initialState)) !! p = Some w -> index w = p.
Proof.
  intros Hes. apply (numbered_run es initialState); [done|].
  apply numbered_initialState.
Qed.

(** X3. As long as every "Remove" click is on the last card of its list, no
    two records of a registry have the same derivation path. *)
Theorem derivation_paths_distinct (es : list Event) (c : Chain) :
  removes_only_last es initialState = true ->
  NoDup (derivationPath <$> get_chain c (wallets (run es initialState))).
Proof.
  intros Hes. set (s := run es initialState).
  assert (numbered s) as Hn
    by (apply (numbered_run es initialState); [done | apply numbered_initialState]).
  assert (derived_from_mnemonic s) as Hd
    by (apply reachable_derived_from_mnemonic; by eexists).
  apply NoDup_alt. intros i j x Hi Hj.
  apply list_lookup_fmap_Some in Hi as (wi & -> & Hi).
  apply list_lookup_fmap_Some in Hj as (wj & Hp & Hj).
  assert (wi ∈ get_chain c (wallets s)) as Hini by (by eapply list_elem_of_lookup_2).
  assert (wj ∈ get_chain c (wallets s)) as Hinj by (by eapply list_elem_of_lookup_2).
  destruct (newWallet_fields _ _ _ _ (Hd c wi Hini)) as [_ Pi].
  destruct (newWallet_fields _ _ _ _ (Hd c wj Hinj)) as [_ Pj].
  rewrite Pi, Pj, (Hn c i wi Hi), (Hn c j wj Hj) in Hp.
  destruct c; cbn [chain_derivationPath] in Hp.
  - unfold solana_derivationPath in Hp. do 2 apply (inj (String.append _)) in Hp.
    apply append_inv_tail in Hp. by apply (inj (pretty (A := nat))) in Hp.
  - unfold ethereum_derivationPath in Hp. do 2 apply (inj (String.append _)) in Hp.
    by apply (inj (pretty (A := nat))) in Hp.
Qed.

(** X4. In every reachable state the record at position [p] of a registry
    has an index of at least [p]: the number on a card is never smaller than
    the card's place in the list. *)
Theorem index_at_least_position (s : AppState) (c : Chain) (p : nat) (w : WalletData) :
  reachable s -> get_chain c (wallets s) !! p = Some w -> p <= index w.
Proof.
  intros [es <-]. revert c p w.
  apply (run_invariant position_le_index); [apply position_le_index_handle|].
  intros c p w. by destruct c.
Qed.

(** X5. In every reachable state without a mnemonic both registries are
    empty: the page never holds wallets it has no seed phrase for. *)
Theorem no_mnemonic_no_wallets (s : AppState) :
  reachable s -> mnemonic s = "" ->
  solana (wallets s) = [] /\ ethereum (wallets s) = [].
Proof.
  intros Hr Hm.
  rewrite (reachable_no_wallets_without_mnemonic s Hr); [done|]. by rewrite Hm.
Qed.

(** X6. When a library call of "Add Wallet" throws, no record is added:
    mnemonic and registries are as before, and a message is shown that starts
    with "Failed to generate Solana wallet: " or "Failed to generate Ethereum
    wallet: " and ends with the message of the error or, if it has none or an
    empty one, with "Unknown error". *)
Theorem deriveNext_failure (c : Chain) (s : AppState) (err : JsError) :
  truthy (mnemonic s) = true ->
  newWallet c (mnemonic s) (length (get_chain c (wallets s))) = Throw err ->
  let text := match message err with
              | Some "" | None => "Unknown error"
              | Some m => m
              end in
  deriveNext c s
  = setError (match c with
              | Solana => "Failed to generate Solana wallet: "
              | Ethereum => "Failed to generate Ethereum wallet: "
              end ++ text) s.
Proof.
  intros Hm Hw text.
  assert (message_or_unknown err = text) as <-.
  { unfold message_or_unknown, text. destruct (message err) as [[|a m]|]; done. }
  destruct c; cbn [deriveNext newWallet get_chain] in *;
    unfold generateSolanaWallet, generateEthereumWallet; by rewrite Hm, Hw.
Qed.

(** X7. When the library calls of "Add Wallet" return, exactly one record
    goes to the end of the chain's registry; its index is the length the
    registry had and its derivation path is the chain's path for that index;
    the other registry is untouched and the error message is cleared. *)
Theorem deriveNext_success (c : Chain) (s : AppState) (w : WalletData) :
  truthy (mnemonic s) = true ->
  newWallet c (mnemonic s) (length (get_chain c (wallets s))) = Return w ->
  let s' := deriveNext c s in
  get_chain c (wallets s') = (get_chain c (wallets s) ++ [w])%list
  /\ index w = length (get_chain c (wallets s))
  /\ derivationPath w = chain_derivationPath c (length (get_chain c (wallets s)))
  /\ (forall c', c <> c' -> get_chain c' (wallets s') = get_chain c' (wallets s))
  /\ error s' = "".
Proof.
  intros Hm Hw s'. subst s'. rewrite (deriveNext_Return c s w) by done.
  cbn [setError setWallets wallets error]. rewrite get_set_chain.
  destruct (newWallet_fields _ _ _ _ Hw) as [Hi Hp].
  do 3 (split; [done|]). split; [|done].
  intros c' Hne. by apply get_set_chain_other.
Qed.

(** X8. Removing the last card of a list whose last record has the index of
    its position, and clicking "Add Wallet" for that chain, brings the same
    record back: the state is the one before the removal, with the error
    message cleared. *)
Theorem remove_last_then_add (c : Chain) (s : AppState) (l : list WalletData)
    (w : WalletData) :
  reachable s ->
  get_chain c (wallets s) = (l ++ [w])%list -> index w = length l ->
  deriveNext c (removeWallet c (length l) s) = setError "" s.
Proof.
  intros Hr Hl Hi.
  assert (w ∈ get_chain c (wallets s)) as Hin by (rewrite Hl, elem_of_app, list_elem_of_singleton; by right).
  pose proof (reachable_registry_mnemonic c s w Hr Hin) as Hm.
  pose proof (reachable_derived_from_mnemonic s Hr c w Hin) as Hw.
  rewrite (deriveNext_Return c _ w).
  - rewrite removeWallet_registry, Hl, (delete_middle l [] w), app_nil_r.
    unfold removeWallet, setError, setWallets. cbn.
    rewrite set_chain_set_chain, <- Hl, set_get_chain. by destruct s.
  - done.
  - rewrite removeWallet_registry, Hl, (delete_middle l [] w), app_nil_r.
    by rewrite <- Hi.
Qed.

(** X9. Removing any other card of such a list and clicking "Add Wallet"
    derives the last record a second time: the registry ends with two copies
    of it. *)
Theorem remove_inner_then_add (c : Chain) (s : AppState) (l : list WalletData)
    (w : WalletData) (i : nat) :
  reachable s ->
  get_chain c (wallets s) = (l ++ [w])%list -> index w = length l ->
  i < length l ->
  get_chain c (wallets (deriveNext c (removeWallet c i s)))
  = (delete i l ++ [w; w])%list.
Proof.
  intros Hr Hl Hi Hlt.
  assert (w ∈ get_chain c (wallets s)) as Hin by (rewrite Hl, elem_of_app, list_elem_of_singleton; by right).
  pose proof (reachable_registry_mnemonic c s w Hr Hin) as Hm.
  pose proof (reachable_derived_from_mnemonic s Hr c w Hin) as Hw.
  assert (get_chain c (wallets (removeWallet c i s)) = (delete i l ++ [w])%list) as Hrem
    by (by rewrite removeWallet_registry, Hl, delete_app_last).
  rewrite (deriveNext_Return c _ w).
  - cbn [setError setWallets wallets]. rewrite get_set_chain, Hrem.
    by rewrite <- app_assoc.
  - done.
  - rewrite Hrem, length_app, length_delete by (by apply lookup_lt_is_Some).
    cbn [length]. replace (length l - 1 + 1) with (length l) by lia.
    by rewrite <- Hi.
Qed.

(** X10. In a reachable state without a mnemonic, "Add Wallet" and
    "Remove" do nothing, however often and in whatever order: the state stays
    exactly as it is. *)
Theorem wallet_clicks_without_mnemonic (es : list Event) (s : AppState) :
  reachable s -> mnemonic s = "" ->
  forallb wallet_click es = true -> run es s = s.
Proof.
  intros Hr Hm Hes.
  assert (wallets s = no_wallets) as Hw
    by (apply (reachable_no_wallets_without_mnemonic s Hr); by rewrite Hm).
  induction es as [|e es IH]; [done|].
  cbn [forallb] in Hes. apply andb_true_iff in Hes as [He Hes].
  cbn [run]. destruct e as [v| |r| | | |c|c i]; try done; cbn [handle].
  - rewrite deriveNext_no_mnemonic by (by rewrite Hm). by apply IH.
  - rewrite removeWallet_out_of_range; [by apply IH|].
    rewrite Hw. destruct c; cbn; lia.
Qed.

(** X11. "Import Seed Phrase" is idempotent: a second click right after
    the first changes nothing, whether the candidate was accepted or not. *)
Theorem importMnemonic_idempotent (s : AppState) :
  importMnemonic (importMnemonic s) = importMnemonic s.
Proof.
  assert (customMnemonic (importMnemonic s) = customMnemonic s) as Hc.
  { destruct (importMnemonic_cases s) as [(msg & _ & ->)|(_ & _ & ->)]; done. }
  unfold importMnemonic at 1. cbv zeta. rewrite Hc.
  destruct (truthy (trim (customMnemonic s))) eqn:Ht; cbn [negb];
    [destruct (validateMnemonic (trim (customMnemonic s))) eqn:Hv; cbn [negb]|];
    unfold importMnemonic; rewrite Ht, ?Hv; reflexivity.
Qed.

(** X12. No handler shows a new error message and changes the mnemonic or
    a registry in the same step: whenever the message after an event is
    non-empty and differs from the one before, mnemonic and registries are
    what they were. *)
Theorem new_error_changes_nothing_else (e : Event) (s : AppState) :
  truthy (error (handle e s)) = true ->
  error (handle e s) <> error s ->
  mnemonic (handle e s) = mnemonic s /\ wallets (handle e s) = wallets s.
Proof.
  destruct e as [v| |r| | | |c|c i]; cbn [handle]; try done.
  - by destruct r.
  - destruct (importMnemonic_cases s) as [(msg & _ & ->)|(_ & _ & ->)]; done.
  - destruct (deriveNext_cases c s) as [->|[(w & _ & _ & ->)|(msg & _ & ->)]]; done.
Qed.

(** X13. After clicks the page offered, a registry that is not empty
    belongs to a mnemonic that [validateMnemonic] accepts. *)
Theorem wallets_only_for_valid_mnemonic (es : list Event) :
  feasible es initialState = true ->
  let s := run es initialState in
  wallets s = no_wallets \/ validateMnemonic (mnemonic s) = true.
Proof.
  assert (forall s, wallets s = no_wallets \/ isValidMnemonic s = true ->
            feasible es s = true ->
            wallets (run es s) = no_wallets \/ isValidMnemonic (run es s) = true) as Hrun.
  { induction es as [|e es IH]; intros s Hs Hf; [done|].
    cbn [feasible run] in *. apply andb_true_iff in Hf as [He Hf].
    apply IH; [|done]. clear IH Hf.
    destruct e as [v| |r| | | |c|c i]; cbn [handle]; try done.
    - destruct r; [by left | done].
    - destruct (importMnemonic_cases s) as [(msg & _ & ->)|(_ & _ & ->)];
        [done | by left].
    - by left.
    - right. cbn [enabled] in He. apply andb_true_iff in He as [_ He].
      unfold isValidMnemonic in *. by rewrite deriveNext_mnemonic.
    - right. cbn [enabled] in He. apply andb_true_iff in He as [He _].
      by apply andb_true_iff in He as [_ He]. }
  intros Hes s. subst s.
  destruct (Hrun initialState) as [H|H]; [by left | done | by left |].
  right. unfold isValidMnemonic in H.
  by destruct (truthy (mnemonic (run es initialState))).
Qed.

(** X14. On the page, at most one timer of "Generate New" is pending at
    any time, and [isGenerating] is set exactly while one is: the button is
    disabled from the click until the callback has run. *)
Theorem one_generation_at_a_time (es : list Event) (p : Page) :
  page_run es Page_initial = Some p ->
  generating p = if isGenerating (component p) then 1 else 0.
Proof.
  assert (forall p0, generating p0 = (if isGenerating (component p0) then 1 else 0) ->
            page_run es p0 = Some p ->
            generating p = if isGenerating (component p) then 1 else 0) as Hrun.
  { induction es as [|e es IH]; intros p0 H0 Hp; [by injection Hp as <-|].
    cbn [page_run] in Hp.
    destruct (page_handle e p0) as [p1|] eqn:He; [|done].
    apply (IH p1); [|done]. clear IH Hp.
    destruct p0 as [s g]. cbn [generating component] in *.
    assert (forall e', isGenerating (handle e' s) = isGenerating s ->
              (if enabled e' s
               then Some {| component := handle e' s; generating := g |}
               else None) = Some p1 ->
              generating p1 = if isGenerating (component p1) then 1 else 0) as Hsame.
    { intros e' Hg Hp1. destruct (enabled e' s); [|done].
      injection Hp1 as <-. cbn. by rewrite Hg. }
    destruct e as [v| |r| | | |c|c i]; cbn [page_handle component generating] in He.
    - by apply (Hsame (ChangeCustomMnemonic v)).
    - cbn [enabled] in He.
      destruct (negb (truthy (mnemonic s)) && negb (isGenerating s)) eqn:Hen; [|done].
      apply andb_true_iff in Hen as [_ Hg]. apply negb_true_iff in Hg.
      rewrite Hg in H0. subst g. by injection He as <-.
    - destruct (Nat.ltb_spec 0 g); [|done]. injection He as <-.
      cbn [generating component handle generateNewMnemonic_timeout setIsGenerating
           isGenerating].
      destruct (isGenerating s); [by subst g | lia].
    - apply (Hsame ClickImport); [|done]. cbn [handle].
      destruct (importMnemonic_cases s) as [(msg & _ & ->)|(_ & _ & ->)]; done.
    - by apply (Hsame ClickShowHide).
    - by apply (Hsame ClickClear).
    - apply (Hsame (ClickAddWallet c)); [|done]. cbn [handle].
      destruct (deriveNext_cases c s) as [->|[(w & _ & _ & ->)|(msg & _ & ->)]]; done.
    - by apply (Hsame (ClickRemove c i)). }
  by apply Hrun.
Qed.

(** X19. "Add Wallet" for one chain and "Add Wallet" for the other lead to
    the same registries in either order, whether the derivations return or
    throw. *)
Theorem add_wallet_commutes (s : AppState) :
  wallets (generateEthereumWallet (generateSolanaWallet s))
  = wallets (generateSolanaWallet (generateEthereumWallet s)).
Proof.
  destruct s as [m cm [sol eth] sh er ig].
  unfold generateEthereumWallet, generateSolanaWallet.
  cbn [mnemonic wallets solana ethereum].
  destruct (truthy m) eqn:Hm; cbn [negb mnemonic]; rewrite ?Hm; [|reflexivity].
  destruct (newSolanaWallet m (length sol)) as [ws|es] eqn:Hs;
    destruct (newEthereumWallet m (length eth)) as [we|ee] eqn:He;
    cbn [setError setWallets set_chain mnemonic wallets solana ethereum negb];
    rewrite ?Hm, ?Hs, ?He;
    cbn [setError setWallets set_chain mnemonic wallets solana ethereum negb];
    rewrite ?Hm, ?Hs, ?He; reflexivity.
Qed.

End Registries.

(** ** [CopyButton] *)

(** X15. Whenever the button reads "Copied", a callback that resets it is
    pending; in particular, once all armed callbacks have run the button
    shows its label again. *)
Theorem copied_is_reset (es : list CopyEvent) (b : CopyButtonState) :
  copy_run es CopyButton_initial = Some b ->
  copied b = true -> 0 < resets b.
Proof.
  assert (forall b0, (copied b0 = true -> 0 < resets b0) ->
            copy_run es b0 = Some b -> copied b = true -> 0 < resets b) as Hrun.
  { induction es as [|e es IH]; intros b0 H0 Hb; [by injection Hb as <-|].
    cbn [copy_run] in Hb. destruct (copy_handle e b0) as [b1|] eqn:He; [|done].
    apply (IH b1); [|done]. clear IH Hb.
    destruct e as [w|]; cbn [copy_handle] in He.
    - injection He as <-. unfold handleCopy.
      destruct (copyToClipboard w); [cbn; lia | done].
    - destruct (Nat.ltb 0 (resets b0)); [|done]. by injection He as <-. }
  apply Hrun. done.
Qed.

(** ** The further theorems at concrete inputs *)

Lemma truncateAddress_long_witness :
  truncateAddress "0x1234567890abcdef" 4 = "0x12...cdef"
  /\ String.length (truncateAddress "0x1234567890abcdef" 4) = 11.
Proof.
  destruct (truncateAddress_long "0x1234567890abcdef" 4) as [H1 H2];
    [lia | cbn; lia |].
  split; [exact H1 | exact H2].
Defined.

Lemma truncateAddress_short_witness :
  truncateAddress4 "abc" = "abc...abc".
Proof. apply (truncateAddress_short "abc" 4). cbn. lia. Defined.

Lemma chain_derivationPath_inj_witness :
  chain_derivationPath Solana 7 = "m/44'/501'/7'/0'"
  /\ (chain_derivationPath Solana 7 = chain_derivationPath Solana 7 ->
      Solana = Solana /\ 7 = 7).
Proof. split; [reflexivity|]. apply (chain_derivationPath_inj Solana Solana 7 7). Defined.

Lemma registries_numbered_witness :
  let es := (import_phrase abandon_about
             ++ [ClickAddWallet Solana; ClickAddWallet Solana; ClickRemove Solana 1;
                 ClickAddWallet Solana; ClickAddWallet Solana])%list in
  removes_only_last (L := standin) es initialState = true
  /\ length (solana (wallets (run (L := standin) es initialState))) = 3
  /\ forall p w,
       get_chain Solana (wallets (run (L := standin) es initialState)) !! p = Some w ->
       index w = p.
Proof.
  intros es. split; [reflexivity|]. split; [reflexivity|].
  pose proof (registries_numbered (L := standin) es) as H.
  specialize (H ltac:(vm_compute; reflexivity)).
  intros p w. exact (H Solana p w).
Defined.

Lemma derivation_paths_distinct_witness :
  let es := (import_phrase abandon_about
             ++ [ClickAddWallet Solana; ClickAddWallet Solana; ClickRemove Solana 1;
                 ClickAddWallet Solana; ClickAddWallet Solana])%list in
  removes_only_last (L := standin) es initialState = true
  /\ NoDup (derivationPath <$>
            get_chain Solana (wallets (run (L := standin) es initialState))).
Proof.
  intros es. split; [reflexivity|].
  pose proof (derivation_paths_distinct (L := standin) es Solana) as H.
  exact (H ltac:(vm_compute; reflexivity)).
Defined.

Lemma index_at_least_position_witness :
  let s := run (L := standin)
             (import_phrase abandon_about
              ++ [ClickAddWallet Solana; ClickAddWallet Solana; ClickAddWallet Solana;
                  ClickRemove Solana 0]) initialState in
  exists w, get_chain Solana (wallets s) !! 1 = Some w /\ index w = 2 /\ 1 <= index w.
Proof.
  intros s. eexists.
  assert (get_chain Solana (wallets s) !! 1 = Some _) as Hw by (vm_compute; reflexivity).
  split; [exact Hw|]. split; [vm_compute; reflexivity|].
  exact (index_at_least_position (L := standin) s Solana 1 _
           (ex_intro _ _ eq_refl) Hw).
Defined.

Lemma no_mnemonic_no_wallets_witness :
  let s := run (L := standin)
             (import_phrase abandon_about ++ [ClickAddWallet Solana; ClickClear])
             initialState in
  mnemonic s = "" /\ solana (wallets s) = [] /\ ethereum (wallets s) = [].
Proof.
  intros s. split; [reflexivity|].
  apply (no_mnemonic_no_wallets (L := standin) s); [eexists; reflexivity | reflexivity].
Defined.

Lemma deriveNext_failure_witness :
  let s := run (L := standin_throwing) (import_phrase abandon_about) initialState in
  mnemonic s = abandon_about
  /\ deriveNext (L := standin_throwing) Ethereum s
     = setError "Failed to generate Ethereum wallet: Unknown error" s.
Proof.
  intros s. split; [reflexivity|].
  apply (deriveNext_failure (L := standin_throwing) Ethereum s {| message := None |});
    reflexivity.
Defined.

Lemma deriveNext_success_witness :
  let s := run (L := standin)
             (import_phrase abandon_about ++ [ClickAddWallet Ethereum]) initialState in
  exists w0 w,
    ethereum (wallets s) = [w0]
    /\ ethereum (wallets (deriveNext (L := standin) Ethereum s)) = [w0; w]
    /\ index w = 1 /\ derivationPath w = "m/44'/60'/1".
Proof.
  intros s.
  edestruct (deriveNext_success (L := standin) Ethereum s) as (Hl & Hi & Hp & _ & _);
    [reflexivity | vm_compute; reflexivity |].
  eexists _, _. split; [reflexivity|]. split; [exact Hl|]. split; [exact Hi | exact Hp].
Defined.

Lemma remove_last_then_add_witness :
  let s := run (L := standin)
             (import_phrase abandon_about ++ [ClickAddWallet Solana; ClickAddWallet Solana])
             initialState in
  exists l w,
    get_chain Solana (wallets s) = (l ++ [w])%list
    /\ length l = 1
    /\ deriveNext (L := standin) Solana (removeWallet Solana (length l) s) = setError "" s.
Proof.
  intros s. exists (take 1 (get_chain Solana (wallets s))).
  eexists. split; [vm_compute; reflexivity|]. split; [vm_compute; reflexivity|].
  eapply (remove_last_then_add (L := standin) Solana s);
    [eexists; reflexivity | vm_compute; reflexivity | vm_compute; reflexivity].
Defined.

Lemma remove_inner_then_add_witness :
  let s := run (L := standin)
             (import_phrase abandon_about
              ++ [ClickAddWallet Solana; ClickAddWallet Solana; ClickAddWallet Solana])
             initialState in
  exists l w,
    get_chain Solana (wallets s) = (l ++ [w])%list
    /\ length l = 2
    /\ get_chain Solana (wallets (deriveNext (L := standin) Solana (removeWallet Solana 0 s)))
       = (delete 0 l ++ [w; w])%list.
Proof.
  intros s. exists (take 2 (get_chain Solana (wallets s))).
  eexists. split; [vm_compute; reflexivity|]. split; [vm_compute; reflexivity|].
  apply (remove_inner_then_add (L := standin) Solana s);
    [eexists; reflexivity | vm_compute; reflexivity | vm_compute; reflexivity
    | vm_compute; lia].
Defined.

Lemma wallet_clicks_without_mnemonic_witness :
  run (L := standin)
      [ClickAddWallet Solana; ClickRemove Ethereum 0; ClickAddWallet Ethereum]
      initialState = initialState.
Proof.
  apply (wallet_clicks_without_mnemonic (L := standin));
    [by exists [] | reflexivity | reflexivity].
Defined.

Lemma new_error_changes_nothing_else_witness :
  let s := setCustomMnemonic "not a real phrase"
             (run (L := standin)
                  (import_phrase abandon_about ++ [ClickAddWallet Solana]) initialState) in
  error s = ""
  /\ error (handle (L := standin) ClickImport s)
     = "Invalid mnemonic phrase. Please check and try again."
  /\ mnemonic (handle (L := standin) ClickImport s) = mnemonic s
  /\ wallets (handle (L := standin) ClickImport s) = wallets s.
Proof.
  intros s. split; [reflexivity|]. split; [reflexivity|].
  apply (new_error_changes_nothing_else (L := standin) ClickImport s);
    [reflexivity | vm_compute; discriminate].
Defined.

Lemma wallets_only_for_valid_mnemonic_witness :
  let es := (import_phrase abandon_about
             ++ [ClickAddWallet Solana; ClickAddWallet Ethereum])%list in
  feasible (L := standin) es initialState = true
  /\ length (solana (wallets (run (L := standin) es initialState))) = 1
  /\ (wallets (run (L := standin) es initialState) = no_wallets
      \/ validateMnemonic (Libraries := standin)
           (mnemonic (run (L := standin) es initialState)) = true).
Proof.
  intros es. split; [reflexivity|]. split; [reflexivity|].
  apply (wallets_only_for_valid_mnemonic (L := standin) es). reflexivity.
Defined.

Lemma one_generation_at_a_time_witness :
  let es := [ClickGenerateNew; ChangeCustomMnemonic "abc"] in
  exists p, page_run (L := standin) es Page_initial = Some p
            /\ isGenerating (component p) = true
            /\ generating p = 1
            /\ page_run (L := standin) (es ++ [ClickGenerateNew]) Page_initial = None.
Proof.
  intros es. eexists. split; [reflexivity|]. split; [reflexivity|].
  split; [|reflexivity].
  apply (one_generation_at_a_time (L := standin) es). reflexivity.
Defined.

Lemma copied_is_reset_witness :
  let es := [ClickCopy (Return tt); ClickCopy (Throw {| message := None |});
             ClickCopy (Return tt); CopyTimeout; ClickCopy (Return tt);
             ClickCopy (Throw {| message := None |})] in
  exists b, copy_run es CopyButton_initial = Some b
            /\ copied b = true
            /\ resets b = 2
            /\ 0 < resets b.
Proof.
  intros es. eexists. split; [reflexivity|]. split; [reflexivity|].
  split; [reflexivity|].
  apply (copied_is_reset es); reflexivity.
Defined.
